(** * Robot_TMS: the tracker processing pipeline of [robot/elfin_processing.py]

    A shallow embedding of the coordinate transforms, the per-axis Kalman
    filter, the motion gate, the head-center estimator and the arc planner,
    followed by theorems about them.

    Numbers: Python and numpy floats are idealised as real numbers.  The
    only places where the program can produce a non-finite float are numpy
    divisions; their results are modelled by [npfloat].  Poses are lists of
    reals, indexed and sliced as in the source; every pose is assumed to
    have the shape the program expects (six components), numpy's shape
    errors are outside the model. *)

From Stdlib Require Import Reals Lra Lia List Bool Arith RNsatz.
Import ListNotations.

Open Scope R_scope.

(** ** Python outcomes *)

Module Py.

(** The exceptions the modelled code paths can raise.  [MatmulOperandError]
    is what numpy's [@] raises when one operand is [None]; [UnpackError] is
    the failure of a tuple assignment whose right-hand side has the wrong
    number of items; [StackShapeError] is [np.vstack] refusing rows of
    different shapes. *)
Inductive exn : Type :=
| MatmulOperandError
| UnpackError
| StackShapeError.

(** A call either returns a value or propagates an exception. *)
Inductive result (A : Type) : Type :=
| Returned (a : A)
| Raised (e : exn).

Arguments Returned {A} a.
Arguments Raised {A} e.

Definition bind {A B : Type} (r : result A) (k : A -> result B) : result B :=
  match r with
  | Returned a => k a
  | Raised e => Raised e
  end.

Definition returns {A : Type} (r : result A) : Prop :=
  exists a, r = Returned a.

Definition raises {A : Type} (r : result A) : Prop :=
  exists e, r = Raised e.

End Py.

Import Py.

Notation "x <- c1 ;; c2" := (Py.bind c1 (fun x => c2))
  (at level 61, c1 at next level, right associativity).

(** ** numpy scalars *)

(** The value of a numpy float: finite, an infinity or not-a-number. *)
Inductive npfloat : Type :=
| Fin (r : R)
| PInf
| NInf
| NaN.

(** [x / n] on finite floats.  numpy does not raise on a zero divisor: it
    warns and yields [nan] for [0 / 0] and a signed infinity otherwise. *)
Definition np_divide (x n : R) : npfloat :=
  if Req_dec_T n 0 then
    if Req_dec_T x 0 then NaN
    else if Rlt_dec 0 x then PInf else NInf
  else Fin (x / n).

(** [v * s] for a finite scalar [s]. *)
Definition np_scale (v : npfloat) (s : R) : npfloat :=
  match v with
  | Fin r => Fin (r * s)
  | PInf => if Rlt_dec 0 s then PInf else if Rlt_dec s 0 then NInf else NaN
  | NInf => if Rlt_dec 0 s then NInf else if Rlt_dec s 0 then PInf else NaN
  | NaN => NaN
  end.

(** [x + v] for a finite [x]. *)
Definition np_add (x : R) (v : npfloat) : npfloat :=
  match v with
  | Fin r => Fin (x + r)
  | other => other
  end.

(** [v > t]; every comparison with [nan] is false. *)
Definition np_gt (v : npfloat) (t : R) : bool :=
  match v with
  | Fin r => if Rlt_dec t r then true else false
  | PInf => true
  | NInf => false
  | NaN => false
  end.

Definition is_finite (v : npfloat) : bool :=
  match v with
  | Fin _ => true
  | _ => false
  end.

Fixpoint finite_values (l : list npfloat) : option (list R) :=
  match l with
  | [] => Some []
  | Fin r :: l' =>
      match finite_values l' with
      | Some rs => Some (r :: rs)
      | None => None
      end
  | _ :: _ => None
  end.

Definition Rsum (l : list R) : R := fold_right Rplus 0 l.

Definition mean (l : list R) : R := Rsum l / INR (length l).

(** [np.std] of the flattened input: the population standard deviation.
    One non-finite entry makes the mean, and so the result, [nan]. *)
Definition np_std (rows : list (list npfloat)) : npfloat :=
  match finite_values (concat rows) with
  | Some xs =>
      let m := mean xs in
      Fin (sqrt (mean (map (fun x => (x - m) * (x - m)) xs)))
  | None => NaN
  end.

(** ** Matrices *)

Definition matrix : Type := list (list R).

Definition mget (M : matrix) (i j : nat) : R := nth j (nth i M []) 0.

Definition identity (n : nat) : matrix :=
  map (fun i => map (fun j => if Nat.eqb i j then 1 else 0) (seq 0 n))
      (seq 0 n).

Definition dot (u v : list R) : R :=
  Rsum (map (fun p => fst p * snd p) (combine u v)).

Definition column (M : matrix) (j : nat) : list R :=
  map (fun row => nth j row 0) M.

(** [A @ B] for two arrays. *)
Definition matmul (A B : matrix) : matrix :=
  map (fun row =>
         map (fun j => dot row (column B j)) (seq 0 (length (hd [] B))))
      A.

(** [A @ B] where an operand may be [None] (an unset calibration). *)
Definition py_matmul (A B : option matrix) : result matrix :=
  match A, B with
  | Some a, Some b => Returned (matmul a b)
  | _, _ => Raised MatmulOperandError
  end.

(** [M[:3, -1]] for a 4x4 array: the translation column. *)
Definition last_column3 (M : matrix) : list R :=
  map (fun row => last row 0) (firstn 3 M).

(** ** The [transformations] module *)

Module tr.

(** The two axis conventions the program uses.  In the table of the
    [transformations] module both stand for first axis 0, parity 0 and no
    repetition, so the axes are [i = 0], [j = 1], [k = 2]; they differ in
    the frame bit: static for ['sxyz'], rotating for ['rzyx']. *)
Inductive axes : Type :=
| sxyz
| rzyx.

Definition frame (c : axes) : bool :=
  match c with
  | sxyz => false
  | rzyx => true
  end.

(** [numpy.finfo(float).eps * 4.0] *)
Definition _EPS : R := 4 * / 2 ^ 52.

(** [math.atan2] on reals (signed zeros are not distinguished). *)
Definition atan2 (y x : R) : R :=
  if Rlt_dec 0 x then atan (y / x)
  else if Rlt_dec x 0 then
    if Rle_dec 0 y then atan (y / x) + PI else atan (y / x) - PI
  else if Rlt_dec 0 y then PI / 2
  else if Rlt_dec y 0 then - (PI / 2)
  else 0.

(** Modelled from the spec: [transformations.euler_matrix] is not among the
    sources; the spec has it build the rotation matrix under the given
    convention.  This is the module's formula for a convention without
    repetition and with parity 0: a rotating frame swaps the first and the
    last angle. *)
Definition euler_matrix (ai aj ak : R) (c : axes) : matrix :=
  let '(ai, ak) := if frame c then (ak, ai) else (ai, ak) in
  let si := sin ai in let sj := sin aj in let sk := sin ak in
  let ci := cos ai in let cj := cos aj in let ck := cos ak in
  let cc := ci * ck in let cs := ci * sk in
  let sc := si * ck in let ss := si * sk in
  [ [cj * ck; sj * sc - cs; sj * cc + ss; 0];
    [cj * sk; sj * ss + cc; sj * cs - sc; 0];
    [- sj;    cj * si;      cj * ci;      0];
    [0;       0;            0;            1] ].

(** Modelled from the spec: [transformations.euler_from_matrix] is not
    among the sources; the spec has it extract the Euler angles from the
    rotation block under the given convention, with a separate resolution
    at gimbal lock (one angle fixed to zero). *)
Definition euler_from_matrix (M : matrix) (c : axes) : R * R * R :=
  let cy := sqrt (mget M 0 0 * mget M 0 0 + mget M 1 0 * mget M 1 0) in
  let '(ax, ay, az) :=
    if Rlt_dec _EPS cy then
      (atan2 (mget M 2 1) (mget M 2 2),
       atan2 (- mget M 2 0) cy,
       atan2 (mget M 1 0) (mget M 0 0))
    else
      (atan2 (- mget M 1 2) (mget M 1 1),
       atan2 (- mget M 2 0) cy,
       0)
  in
  if frame c then (az, ay, ax) else (ax, ay, az).

(** Modelled from the spec: [transformations.translation_matrix], the
    identity with the translation in its last column. *)
Definition translation_matrix (direction : list R) : matrix :=
  [ [1; 0; 0; nth 0 direction 0];
    [0; 1; 0; nth 1 direction 0];
    [0; 0; 1; nth 2 direction 0];
    [0; 0; 0; 1] ].

(** Modelled from the spec: [transformations.translation_from_matrix], the
    first three entries of the last column. *)
Definition translation_from_matrix (M : matrix) : list R :=
  [mget M 0 3; mget M 1 3; mget M 2 3].

(** Modelled from the spec: [transformations.concatenate_matrices], the
    product of the given matrices, from the left. *)
Definition concatenate_matrices (Ms : list matrix) : matrix :=
  fold_left matmul Ms (identity 4).

End tr.

(** [np.radians] and [np.degrees] *)
Definition radians (x : R) : R := x * (PI / 180).
Definition degrees (x : R) : R := x * (180 / PI).

(** ** Module-level functions of [elfin_processing.py] *)

Definition coordinates_to_transformation_matrix
    (position orientation : list R) (axes : tr.axes) : matrix :=
  let a := radians (nth 0 orientation 0) in
  let b := radians (nth 1 orientation 0) in
  let g := radians (nth 2 orientation 0) in
  let r_ref := tr.euler_matrix a b g axes in
  let t_ref := tr.translation_matrix position in
  let m_img := tr.concatenate_matrices [t_ref; r_ref] in
  m_img.

Definition transformation_matrix_to_coordinates
    (M : matrix) (axes : tr.axes) : list R * list R :=
  let '(ax, ay, az) := tr.euler_from_matrix M axes in
  let angles_as_deg := [degrees ax; degrees ay; degrees az] in
  let translation := tr.translation_from_matrix M in
  (translation, angles_as_deg).

(** [coord_raw] is a two-dimensional array of poses. *)
Definition compute_marker_transformation
    (coord_raw : list (list R)) (obj_ref_mode : nat) : matrix :=
  let row := nth obj_ref_mode coord_raw [] in
  coordinates_to_transformation_matrix (firstn 3 row) (skipn 3 row) tr.rzyx.

(** The function has no [return None]: on success it always returns a
    list, which is [Some] here because its caller tests the result against
    [None]. *)
Definition transformation_tracker_to_robot
    (m_tracker_to_robot : option matrix) (tracker_coord : list R)
    : result (option (list R)) :=
  let M_tracker :=
    coordinates_to_transformation_matrix
      (firstn 3 tracker_coord) (firstn 3 (skipn 3 tracker_coord)) tr.rzyx in
  M_tracker_in_robot <- py_matmul m_tracker_to_robot (Some M_tracker) ;;
  let '(translation, angles_as_deg) :=
    transformation_matrix_to_coordinates M_tracker_in_robot tr.rzyx in
  let tracker_in_robot := translation ++ angles_as_deg in
  Returned (Some tracker_in_robot).

Definition transform_tracker_to_robot
    (m_tracker_to_robot : option matrix) (coord_tracker : list (list R))
    : result (list (list R)) :=
  probe_tracker_in_robot <-
    transformation_tracker_to_robot m_tracker_to_robot (nth 0 coord_tracker []) ;;
  ref_tracker_in_robot <-
    transformation_tracker_to_robot m_tracker_to_robot (nth 1 coord_tracker []) ;;
  obj_tracker_in_robot <-
    transformation_tracker_to_robot m_tracker_to_robot (nth 2 coord_tracker []) ;;
  match probe_tracker_in_robot, ref_tracker_in_robot, obj_tracker_in_robot with
  | Some p, Some r, Some o => Returned [p; r; o]
  | None, _, _ =>
      Returned [nth 0 coord_tracker []; nth 1 coord_tracker []; nth 2 coord_tracker []]
  | Some _, _, _ => Raised StackShapeError
  end.

(** ** [cv2.KalmanFilter] *)

Module cv2.

Definition vec2 : Type := (R * R)%type.
Definition mat2 : Type := ((R * R) * (R * R))%type.

Definition eye2 : mat2 := ((1, 0), (0, 1)).
Definition zeros2 : mat2 := ((0, 0), (0, 0)).

Definition mat2_mul (A B : mat2) : mat2 :=
  let '((a00, a01), (a10, a11)) := A in
  let '((b00, b01), (b10, b11)) := B in
  ((a00 * b00 + a01 * b10, a00 * b01 + a01 * b11),
   (a10 * b00 + a11 * b10, a10 * b01 + a11 * b11)).

Definition mat2_transpose (A : mat2) : mat2 :=
  let '((a00, a01), (a10, a11)) := A in ((a00, a10), (a01, a11)).

Definition mat2_add (A B : mat2) : mat2 :=
  let '((a00, a01), (a10, a11)) := A in
  let '((b00, b01), (b10, b11)) := B in
  ((a00 + b00, a01 + b01), (a10 + b10, a11 + b11)).

Definition mat2_sub (A B : mat2) : mat2 :=
  let '((a00, a01), (a10, a11)) := A in
  let '((b00, b01), (b10, b11)) := B in
  ((a00 - b00, a01 - b01), (a10 - b10, a11 - b11)).

Definition mat2_scale (A : mat2) (s : R) : mat2 :=
  let '((a00, a01), (a10, a11)) := A in
  ((a00 * s, a01 * s), (a10 * s, a11 * s)).

(** A 2x2 matrix applied to a column. *)
Definition mat2_vec (A : mat2) (v : vec2) : vec2 :=
  let '((a00, a01), (a10, a11)) := A in
  let '(v0, v1) := v in (a00 * v0 + a01 * v1, a10 * v0 + a11 * v1).

(** A row times a 2x2 matrix. *)
Definition row_mat2 (h : vec2) (A : mat2) : vec2 :=
  let '((a00, a01), (a10, a11)) := A in
  let '(h0, h1) := h in (h0 * a00 + h1 * a10, h0 * a01 + h1 * a11).

Definition dot2 (u v : vec2) : R := fst u * fst v + snd u * snd v.

(** A column times a row. *)
Definition outer2 (k t : vec2) : mat2 :=
  ((fst k * fst t, fst k * snd t), (snd k * fst t, snd k * snd t)).

(** Modelled from the spec: OpenCV's Kalman filter is not among the
    sources; the spec has [update] perform a predict step followed by a
    correct step of the standard linear Kalman recursion.  The filter has
    two states and one measurement, so the measurement matrix is a row and
    the measurement noise covariance a scalar. *)
Record KalmanFilter : Type := {
  transitionMatrix : mat2;
  measurementMatrix : vec2;
  processNoiseCov : mat2;
  measurementNoiseCov : R;
  statePre : vec2;
  statePost : vec2;
  errorCovPre : mat2;
  errorCovPost : mat2;
  gain : vec2
}.

(** [cv2.KalmanFilter(2, 1, 0)] *)
Definition create : KalmanFilter := {|
  transitionMatrix := eye2;
  measurementMatrix := (0, 0);
  processNoiseCov := eye2;
  measurementNoiseCov := 1;
  statePre := (0, 0);
  statePost := (0, 0);
  errorCovPre := zeros2;
  errorCovPost := zeros2;
  gain := (0, 0)
|}.

(** [predict()]: x' = A x, P' = A P A^T + Q; both are also copied to the
    posterior fields.  Returns the predicted state. *)
Definition predict (f : KalmanFilter) : vec2 * KalmanFilter :=
  let A := transitionMatrix f in
  let x' := mat2_vec A (statePost f) in
  let P' := mat2_add (mat2_mul (mat2_mul A (errorCovPost f)) (mat2_transpose A))
                     (processNoiseCov f) in
  (x', {| transitionMatrix := A;
          measurementMatrix := measurementMatrix f;
          processNoiseCov := processNoiseCov f;
          measurementNoiseCov := measurementNoiseCov f;
          statePre := x';
          statePost := x';
          errorCovPre := P';
          errorCovPost := P';
          gain := gain f |}).

(** [correct(z)]: K = P' H^T / (H P' H^T + R), x = x' + K (z - H x'),
    P = P' - K H P'. *)
Definition correct (f : KalmanFilter) (z : R) : KalmanFilter :=
  let H := measurementMatrix f in
  let temp2 := row_mat2 H (errorCovPre f) in
  let temp3 := dot2 temp2 H + measurementNoiseCov f in
  let K := (fst temp2 / temp3, snd temp2 / temp3) in
  let temp5 := z - dot2 H (statePre f) in
  {| transitionMatrix := transitionMatrix f;
     measurementMatrix := H;
     processNoiseCov := processNoiseCov f;
     measurementNoiseCov := measurementNoiseCov f;
     statePre := statePre f;
     statePost := (fst (statePre f) + fst K * temp5,
                   snd (statePre f) + snd K * temp5);
     errorCovPre := errorCovPre f;
     errorCovPost := mat2_sub (errorCovPre f) (outer2 K temp2);
     gain := K |}.

End cv2.

(** ** class [KalmanTracker] *)

Record KalmanTracker : Type := {
  state_num : nat;
  filter : cv2.KalmanFilter;
  state : cv2.vec2;
  measurement : list R;
  prediction : cv2.vec2
}.

(** [KalmanTracker.__init__] *)
Definition KalmanTracker_init
    (state_num : nat) (covariance_process covariance_measure : R)
    : KalmanTracker :=
  let f := cv2.create in
  {| state_num := state_num;
     filter :=
       {| cv2.transitionMatrix := ((1, 1), (0, 1));
          cv2.measurementMatrix := (1, 1);
          cv2.processNoiseCov := cv2.mat2_scale ((1, 0), (0, 1)) covariance_process;
          cv2.measurementNoiseCov := 1 * covariance_measure;
          cv2.statePre := cv2.statePre f;
          cv2.statePost := cv2.statePost f;
          cv2.errorCovPre := cv2.errorCovPre f;
          cv2.errorCovPost := cv2.errorCovPost f;
          cv2.gain := cv2.gain f |};
     state := (0, 0);
     measurement := [1; 1];
     prediction := (0, 0) |}.

Definition update_kalman (k : KalmanTracker) (measurement : list R)
    : KalmanTracker :=
  let '(prediction, f1) := cv2.predict (filter k) in
  let z := nth 0 measurement 0 in
  let f2 := cv2.correct f1 z in
  {| state_num := state_num k;
     filter := f2;
     state := cv2.statePost f2;
     measurement := [z];
     prediction := prediction |}.

(** ** class [TrackerProcessing] *)

Record TrackerProcessing : Type := {
  coord_vel : list (list R);
  timestamp : list R;
  velocity_vector : list (list npfloat);
  kalman_coord_vector : list (list R);
  velocity_std : npfloat;
  m_tracker_to_robot : option matrix;
  matrix_tracker_fiducials : list (option matrix);
  tracker_stabilizers : list KalmanTracker
}.

(** [TrackerProcessing.__init__] *)
Definition TrackerProcessing_init : TrackerProcessing := {|
  coord_vel := [];
  timestamp := [];
  velocity_vector := [];
  kalman_coord_vector := [];
  velocity_std := Fin 0;
  m_tracker_to_robot := None;
  matrix_tracker_fiducials := repeat None 3;
  tracker_stabilizers :=
    map (fun _ => KalmanTracker_init 2 (1 / 1000) (1 / 10)) (seq 0 6)
|}.

Definition SetMatrixTrackerFiducials
    (self : TrackerProcessing) (fiducials : list (option matrix))
    : TrackerProcessing :=
  {| coord_vel := coord_vel self;
     timestamp := timestamp self;
     velocity_vector := velocity_vector self;
     kalman_coord_vector := kalman_coord_vector self;
     velocity_std := velocity_std self;
     m_tracker_to_robot := m_tracker_to_robot self;
     matrix_tracker_fiducials := fiducials;
     tracker_stabilizers := tracker_stabilizers self |}.

(** The loop of [kalman_filter]: [zip] pairs the pose components with the
    stabilizers; each paired stabilizer is updated in place and its
    corrected value [state[0]] collected. *)
Fixpoint update_stabilizers (values : list R) (stabilizers : list KalmanTracker)
    : list KalmanTracker * list R :=
  match values, stabilizers with
  | value :: values', ps_stb :: stabilizers' =>
      let ps_stb' := update_kalman ps_stb [value] in
      let '(rest, kalman_array) := update_stabilizers values' stabilizers' in
      (ps_stb' :: rest, fst (state ps_stb') :: kalman_array)
  | _, _ => (stabilizers, [])
  end.

Definition kalman_filter (self : TrackerProcessing) (coord_tracker : list R)
    : list R * TrackerProcessing :=
  let pose_np := firstn 3 coord_tracker ++ skipn 3 coord_tracker in
  let '(stabilizers, coord_kalman) :=
    update_stabilizers pose_np (tracker_stabilizers self) in
  let window := kalman_coord_vector self ++ [firstn 3 coord_kalman] in
  let full := negb (length window <? 20)%nat in
  (if full then coord_kalman else coord_tracker,
   {| coord_vel := coord_vel self;
      timestamp := timestamp self;
      velocity_vector := velocity_vector self;
      kalman_coord_vector := if full then tl window else window;
      velocity_std := velocity_std self;
      m_tracker_to_robot := m_tracker_to_robot self;
      matrix_tracker_fiducials := matrix_tracker_fiducials self;
      tracker_stabilizers := stabilizers |}).

(** [rows.mean(axis=0)] *)
Definition mean_rows (rows : list (list R)) : list R :=
  map (fun j => mean (column rows j)) (seq 0 (length (hd [] rows))).

Definition vec_sub (u v : list R) : list R :=
  map (fun p => fst p - snd p) (combine u v).

Definition estimate_head_velocity
    (coord_vel : list (list R)) (timestamp : list R)
    : list npfloat * list R :=
  let half := (length coord_vel / 2)%nat in
  let coord_init := mean_rows (firstn half coord_vel) in
  let coord_final := mean_rows (skipn half coord_vel) in
  let dt := last timestamp 0 - hd 0 timestamp in
  let velocity := map (fun d => np_divide d dt) (vec_sub coord_final coord_init) in
  let distance := vec_sub coord_final coord_init in
  (velocity, distance).

Definition compute_head_move_compensation
    (current_head : list R) (m_change_robot_to_head : matrix) : list R :=
  let M_current_head :=
    coordinates_to_transformation_matrix
      (firstn 3 current_head) (firstn 3 (skipn 3 current_head)) tr.rzyx in
  let m_robot_new := matmul M_current_head m_change_robot_to_head in
  let '(translation, angles_as_deg) :=
    transformation_matrix_to_coordinates m_robot_new tr.sxyz in
  translation ++ angles_as_deg.

Definition estimate_head_center
    (self : TrackerProcessing) (current_head : list R) : result (list R) :=
  match matrix_tracker_fiducials self with
  | [m_probe_head_left; m_probe_head_right; m_probe_head_nasion] =>
      let m_current_head := compute_marker_transformation [current_head] 0 in
      m_ear_left_new <- py_matmul (Some m_current_head) m_probe_head_left ;;
      m_ear_right_new <- py_matmul (Some m_current_head) m_probe_head_right ;;
      Returned
        (map (fun p => (fst p + snd p) / 2)
             (combine (last_column3 m_ear_left_new) (last_column3 m_ear_right_new)))
  | _ => Raised UnpackError
  end.

Definition correction_distance_calculation_target
    (coord_inv actual_point : list R) : R :=
  sqrt ((nth 0 coord_inv 0 - nth 0 actual_point 0) ^ 2 +
        (nth 1 coord_inv 0 - nth 1 actual_point 0) ^ 2 +
        (nth 2 coord_inv 0 - nth 2 actual_point 0) ^ 2).

Definition estimate_robot_target_length (robot_target : list R) : R :=
  sqrt (nth 0 robot_target 0 ^ 2 + nth 1 robot_target 0 ^ 2 +
        nth 2 robot_target 0 ^ 2).

(** The methods that read the configuration constants of [constants.py],
    which is not among the sources: the constants are parameters. *)
Section Constants.

Variable ROBOT_VERSOR_SCALE_FACTOR : R.
Variable ROBOT_HEAD_VELOCITY_THRESHOLD : R.

Definition compute_versors (init_point final_point : list R) : list npfloat :=
  let diff := vec_sub final_point init_point in
  let norm := sqrt (Rsum (map (fun d => d ^ 2) diff)) in
  map (fun d => np_scale (np_divide d norm) ROBOT_VERSOR_SCALE_FACTOR) diff.

Definition compute_arc_motion
    (current_robot_coordinates head_center_coordinates new_robot_coordinates
       : list R)
    : list npfloat * list npfloat :=
  let cur := fun i => nth i current_robot_coordinates 0 in
  let new := fun i => nth i new_robot_coordinates 0 in
  let head_center :=
    [nth 0 head_center_coordinates 0; nth 1 head_center_coordinates 0;
     nth 2 head_center_coordinates 0; new 3%nat; new 4%nat; new 5%nat] in
  let versor_factor_move_out :=
    compute_versors head_center current_robot_coordinates in
  let init_move_out_point :=
    [np_add (cur 0%nat) (nth 0 versor_factor_move_out NaN);
     np_add (cur 1%nat) (nth 1 versor_factor_move_out NaN);
     np_add (cur 2%nat) (nth 2 versor_factor_move_out NaN);
     Fin (cur 3%nat); Fin (cur 4%nat); Fin (cur 5%nat)] in
  let middle_point :=
    [(new 0%nat + cur 0%nat) / 2; (new 1%nat + cur 1%nat) / 2;
     (new 2%nat + cur 2%nat) / 2; 0; 0; 0] in
  let versor_factor_middle_arc :=
    map (fun v => np_scale v 2) (compute_versors head_center middle_point) in
  let middle_arc_point :=
    [np_add (nth 0 middle_point 0) (nth 0 versor_factor_middle_arc NaN);
     np_add (nth 1 middle_point 0) (nth 1 versor_factor_middle_arc NaN);
     np_add (nth 2 middle_point 0) (nth 2 versor_factor_middle_arc NaN)] in
  let versor_factor_arc :=
    compute_versors head_center new_robot_coordinates in
  let final_ext_arc_point :=
    [np_add (new 0%nat) (nth 0 versor_factor_arc NaN);
     np_add (new 1%nat) (nth 1 versor_factor_arc NaN);
     np_add (new 2%nat) (nth 2 versor_factor_arc NaN);
     Fin (new 3%nat); Fin (new 4%nat); Fin (new 5%nat); Fin 0] in
  let target_arc := middle_arc_point ++ final_ext_arc_point in
  (init_move_out_point, target_arc).

(** [now] is the value [time()] returns during the call. *)
Definition compute_head_move_threshold
    (self : TrackerProcessing) (current_ref : list R) (now : R)
    : bool * TrackerProcessing :=
  let coord_vel1 := coord_vel self ++ [current_ref] in
  let timestamp1 := timestamp self ++ [now] in
  if (10 <=? length coord_vel1)%nat then
    let '(head_velocity, head_distance) :=
      estimate_head_velocity coord_vel1 timestamp1 in
    let velocity_vector1 := velocity_vector self ++ [head_velocity] in
    let recompute := (30 <=? length velocity_vector1)%nat in
    let velocity_std1 :=
      if recompute then np_std velocity_vector1 else velocity_std self in
    (negb (np_gt velocity_std1 ROBOT_HEAD_VELOCITY_THRESHOLD),
     {| coord_vel := tl coord_vel1;
        timestamp := tl timestamp1;
        velocity_vector :=
          if recompute then tl velocity_vector1 else velocity_vector1;
        kalman_coord_vector := kalman_coord_vector self;
        velocity_std := velocity_std1;
        m_tracker_to_robot := m_tracker_to_robot self;
        matrix_tracker_fiducials := matrix_tracker_fiducials self;
        tracker_stabilizers := tracker_stabilizers self |})
  else
    (false,
     {| coord_vel := coord_vel1;
        timestamp := timestamp1;
        velocity_vector := velocity_vector self;
        kalman_coord_vector := kalman_coord_vector self;
        velocity_std := velocity_std self;
        m_tracker_to_robot := m_tracker_to_robot self;
        matrix_tracker_fiducials := matrix_tracker_fiducials self;
        tracker_stabilizers := tracker_stabilizers self |}).

End Constants.

(** ** Vocabulary of the properties *)

(** The matrix of a pose, entry by entry: the static-XYZ rotation block of
    the angles [ai], [aj], [ak] (radians) and the position in the last
    column. *)
Definition pose_matrix (ai aj ak : R) (p : list R) : matrix :=
  [ [cos aj * cos ak; sin aj * (sin ai * cos ak) - cos ai * sin ak;
     sin aj * (cos ai * cos ak) + sin ai * sin ak; nth 0 p 0];
    [cos aj * sin ak; sin aj * (sin ai * sin ak) + cos ai * cos ak;
     sin aj * (cos ai * sin ak) - sin ai * cos ak; nth 1 p 0];
    [- sin aj; cos aj * sin ai; cos aj * cos ai; nth 2 p 0];
    [0; 0; 0; 1] ].

(** Two vectors agree componentwise up to [tol]. *)
Definition within (tol : R) (u v : list R) : Prop :=
  Forall2 (fun x y => Rabs (x - y) <= tol) u v.

(** Decoding the matrix of [(p, o)] gives [(p, o)] back up to [tol]. *)
Definition roundtrip_within (tol : R) (p o : list R) (c : tr.axes) : Prop :=
  let '(p', o') :=
    transformation_matrix_to_coordinates
      (coordinates_to_transformation_matrix p o c) c in
  within tol p' p /\ within tol o' o.

(** Frame conversion as the specification words it, with the convention
    [out] of the decoding left open: the marker's matrix is built under
    the rotating-ZYX convention, multiplied from the left by the
    tracker-to-robot matrix and decoded under [out]. *)
Definition convert_marker_spec (out : tr.axes) (m : matrix) (pose : list R)
    : list R :=
  let M :=
    coordinates_to_transformation_matrix
      (firstn 3 pose) (firstn 3 (skipn 3 pose)) tr.rzyx in
  let '(translation, angles) :=
    transformation_matrix_to_coordinates (matmul m M) out in
  translation ++ angles.

Definition toRobotFrame_spec (out : tr.axes) (m : matrix)
    (sample : list (list R)) : list (list R) :=
  map (convert_marker_spec out m)
      [nth 0 sample []; nth 1 sample []; nth 2 sample []].

(** The instance after a sequence of calls of [kalman_filter]. *)
Definition kalman_ticks (self : TrackerProcessing) (inputs : list (list R))
    : TrackerProcessing :=
  fold_left (fun st c => snd (kalman_filter st c)) inputs self.

(** What the six stabilizers answer to the pose [coord_tracker]. *)
Definition filtered_pose (self : TrackerProcessing) (coord_tracker : list R)
    : list R :=
  snd (update_stabilizers (firstn 3 coord_tracker ++ skipn 3 coord_tracker)
                          (tracker_stabilizers self)).

(** The instance after a sequence of calls of
    [compute_head_move_threshold], each with its pose and clock value. *)
Definition observe_all (threshold : R) (self : TrackerProcessing)
    (inputs : list (list R * R)) : TrackerProcessing :=
  fold_left
    (fun st i => snd (compute_head_move_threshold threshold st (fst i) (snd i)))
    inputs self.

(** The calls a client can make on an instance.  The remaining methods
    ([estimate_head_velocity], [compute_versors], [compute_arc_motion],
    [compute_head_move_compensation], [estimate_head_center] and the two
    distance helpers) assign no attribute: they are [Op_read_only]. *)
Inductive operation : Type :=
| Op_SetMatrixTrackerFiducials (fiducials : list (option matrix))
| Op_kalman_filter (coord_tracker : list R)
| Op_compute_head_move_threshold (current_ref : list R) (now : R)
| Op_read_only.

Definition apply_operation (threshold : R) (self : TrackerProcessing)
    (op : operation) : TrackerProcessing :=
  match op with
  | Op_SetMatrixTrackerFiducials f => SetMatrixTrackerFiducials self f
  | Op_kalman_filter c => snd (kalman_filter self c)
  | Op_compute_head_move_threshold c now =>
      snd (compute_head_move_threshold threshold self c now)
  | Op_read_only => self
  end.

Definition run (threshold : R) (self : TrackerProcessing)
    (ops : list operation) : TrackerProcessing :=
  fold_left (apply_operation threshold) ops self.

Definition windows_bounded (self : TrackerProcessing) : Prop :=
  (length (coord_vel self) <= 10)%nat /\
  (length (timestamp self) <= 10)%nat /\
  (length (velocity_vector self) <= 30)%nat /\
  (length (kalman_coord_vector self) <= 20)%nat.

(** One call leaves a window alone, appends one entry at its end, or
    appends one entry and drops the oldest. *)
Definition fifo_step {A : Type} (w w' : list A) : Prop :=
  w' = w \/ exists x, w' = w ++ [x] \/ w' = tl (w ++ [x]).

Definition windows_fifo (self self' : TrackerProcessing) : Prop :=
  fifo_step (coord_vel self) (coord_vel self') /\
  fifo_step (timestamp self) (timestamp self') /\
  fifo_step (velocity_vector self) (velocity_vector self') /\
  fifo_step (kalman_coord_vector self) (kalman_coord_vector self').

(** Euclidean distance of the positions (first three components). *)
Definition distance3 (u v : list R) : R :=
  sqrt ((nth 0 u 0 - nth 0 v 0) ^ 2 + (nth 1 u 0 - nth 1 v 0) ^ 2 +
        (nth 2 u 0 - nth 2 v 0) ^ 2).

Definition norm3 (u : list R) : R :=
  sqrt (nth 0 u 0 ^ 2 + nth 1 u 0 ^ 2 + nth 2 u 0 ^ 2).

(** The Euclidean norm over all the components of a vector. *)
Definition euclidean_norm (u : list R) : R :=
  sqrt (Rsum (map (fun d => d ^ 2) u)).

(** The midpoint of the positions of two poses. *)
Definition position_midpoint (current new : list R) : list R :=
  [(nth 0 new 0 + nth 0 current 0) / 2;
   (nth 1 new 0 + nth 1 current 0) / 2;
   (nth 2 new 0 + nth 2 current 0) / 2].

(** The arc bows outward: the middle arc point (the first three entries
    of the target arc) is finite and strictly farther from the head center
    than the midpoint of the two positions. *)
Definition bows_outward (scale : R) (current head_center new : list R)
    : Prop :=
  exists x y z,
    firstn 3 (snd (compute_arc_motion scale current head_center new)) =
      [Fin x; Fin y; Fin z] /\
    distance3 (position_midpoint current new) head_center <
    distance3 [x; y; z] head_center.

Definition all_finite (l : list npfloat) : Prop :=
  Forall (fun v => is_finite v = true) l.

(** A symmetric, positive semi-definite error covariance whose lower row
    has a non-negative sum. *)
Definition covariance_ok (P : cv2.mat2) : Prop :=
  snd (fst P) = fst (snd P) /\
  0 <= fst (fst P) /\ 0 <= snd (snd P) /\
  snd (fst P) * snd (fst P) <= fst (fst P) * snd (snd P) /\
  0 <= snd (fst P) + snd (snd P).

(** A stabilizer as [KalmanTracker.__init__] configures it, whose state
    estimate is zero: what it is before the first non-zero measurement. *)
Definition stabilizer_at_rest (k : KalmanTracker) : Prop :=
  cv2.transitionMatrix (filter k) = ((1, 1), (0, 1)) /\
  cv2.measurementMatrix (filter k) = (1, 1) /\
  (exists q, 0 < q /\ cv2.processNoiseCov (filter k) = ((q, 0), (0, q))) /\
  0 < cv2.measurementNoiseCov (filter k) /\
  cv2.statePost (filter k) = (0, 0) /\
  covariance_ok (cv2.errorCovPost (filter k)).

(** The pose of a head at rest at the origin. *)
Definition zero_pose : list R := [0; 0; 0; 0; 0; 0].

(** Nine observations of a head at rest, one per second. *)
Definition nine_still_poses : list (list R * R) :=
  [(zero_pose, 0); (zero_pose, 1); (zero_pose, 2); (zero_pose, 3);
   (zero_pose, 4); (zero_pose, 5); (zero_pose, 6); (zero_pose, 7);
   (zero_pose, 8)].

(** ** Vocabulary of the further properties *)

(** A pose whose angles the decoder reads back unchanged: six components,
    first and last angle in (-180, 180] degrees, middle angle in (-90, 90)
    degrees and away from gimbal lock. *)
Definition principal_pose (pose : list R) : Prop :=
  length pose = 6%nat /\
  -180 < nth 3 pose 0 <= 180 /\
  -90 < nth 4 pose 0 < 90 /\
  -180 < nth 5 pose 0 <= 180 /\
  tr._EPS < cos (radians (nth 4 pose 0)).

(** A 4x4 homogeneous matrix: four rows of four entries, with 1 in the
    bottom right corner. *)
Definition homogeneous (M : matrix) : Prop :=
  length M = 4%nat /\ Forall (fun row => length row = 4%nat) M /\
  mget M 3 3 = 1.

(** The midpoint of two points. *)
Definition midpoint (u v : list R) : list R :=
  map (fun p => (fst p + snd p) / 2) (combine u v).

(** The image of a point under a 4x4 transformation matrix: the point is
    given the homogeneous coordinate 1, the first three rows are applied. *)
Definition transform_point (M : matrix) (v : list R) : list R :=
  map (fun row => dot row (v ++ [1])) (firstn 3 M).

(** A stabilizer after a sequence of measurements. *)
Definition feed (k : KalmanTracker) (zs : list R) : KalmanTracker :=
  fold_left (fun k z => update_kalman k [z]) zs k.

(** Two filters with the same matrices and the same error covariance: they
    apply the same gain to their next measurement. *)
Definition same_gain (f1 f2 : cv2.KalmanFilter) : Prop :=
  cv2.transitionMatrix f1 = cv2.transitionMatrix f2 /\
  cv2.measurementMatrix f1 = cv2.measurementMatrix f2 /\
  cv2.processNoiseCov f1 = cv2.processNoiseCov f2 /\
  cv2.measurementNoiseCov f1 = cv2.measurementNoiseCov f2 /\
  cv2.errorCovPost f1 = cv2.errorCovPost f2.

(** [x + c * y] on state vectors. *)
Definition vec2_combine (x : cv2.vec2) (c : R) (y : cv2.vec2) : cv2.vec2 :=
  (fst x + c * fst y, snd x + c * snd y).

(** The stabilizer of a fresh [TrackerProcessing] instance. *)
Definition fresh_stabilizer : KalmanTracker :=
  KalmanTracker_init 2 (1 / 1000) (1 / 10).

(** The history of one pose component over a sequence of poses. *)
Definition component (i : nat) (poses : list (list R)) : list R :=
  map (fun pose => nth i pose 0) poses.

(** Clock values that increase strictly from one call to the next. *)
Definition increasing (ts : list R) : Prop :=
  forall i j, (i < j < length ts)%nat -> nth i ts 0 < nth j ts 0.

(** The velocity sample of a head that does not move. *)
Definition zero_velocity : list npfloat := repeat (Fin 0) 6.

(** Observations of a head that stays at the pose [c], at the clock values
    [ts]. *)
Definition still_head (c : list R) (ts : list R) : list (list R * R) :=
  map (fun t => (c, t)) ts.

(** Thirty-eight observations of a head at rest on a clock that ticks once
    per call for 29 calls and then stalls at 29. *)
Definition stalling_clock : list R :=
  map INR (seq 0 29) ++ repeat 29 9.

(** The upper left 3x3 block of a matrix, and the transpose of a 3x3
    matrix. *)
Definition rotation_block (M : matrix) : matrix :=
  map (fun row => firstn 3 row) (firstn 3 M).

Definition transpose3 (M : matrix) : matrix :=
  map (fun j => map (fun i => mget M i j) (seq 0 3)) (seq 0 3).

(** A pose moved by the vector [t], its angles kept. *)
Definition shifted (t pose : list R) : list R :=
  [nth 0 pose 0 + nth 0 t 0; nth 1 pose 0 + nth 1 t 0;
   nth 2 pose 0 + nth 2 t 0; nth 3 pose 0; nth 4 pose 0; nth 5 pose 0].

(** Ten poses of a head in uniform motion: pose [k] is [start + k * step],
    taken at the clock value [t0 + k * dt]. *)
Definition uniform_poses (start step : list R) : list (list R) :=
  map (fun k => map (fun p => fst p + INR k * snd p) (combine start step))
      (seq 0 10).

Definition uniform_clock (t0 dt : R) : list R :=
  map (fun k => t0 + INR k * dt) (seq 0 10).

(** The number of gate calls, and of filter calls, in a sequence of
    operations. *)
Definition gate_calls (ops : list operation) : nat :=
  length (List.filter (fun op => match op with
                            | Op_compute_head_move_threshold _ _ => true
                            | _ => false
                            end) ops).

Definition filter_calls (ops : list operation) : nat :=
  length (List.filter (fun op => match op with
                            | Op_kalman_filter _ => true
                            | _ => false
                            end) ops).

(** ** Proof tactics *)

(** Equality of two matrices given entry by entry. *)
Ltac matrix_entries := repeat (f_equal; try ring).

(** A list of known length six, or three, as its entries; [H] is the
    equation on its length. *)
Ltac list6 l H :=
  destruct l as [|? [|? [|? [|? [|? [|? [|? ?]]]]]]]; try discriminate H.

Ltac list3 l H :=
  destruct l as [|? [|? [|? [|? ?]]]]; try discriminate H.

(** A list of known length four as its entries, and a homogeneous matrix
    as its sixteen entries; [H] is the hypothesis on the shape. *)
Ltac list4 l H :=
  destruct l as [|? [|? [|? [|? [|? ?]]]]]; try discriminate H.

Ltac rows4 M H :=
  let Hlen := fresh "Hlen" in
  let Hrows := fresh "Hrows" in
  let Hone := fresh "Hone" in
  destruct H as (Hlen & Hrows & Hone);
  list4 M Hlen;
  repeat match goal with
  | Hr : Forall _ (?row :: _) |- _ =>
      let Hrow := fresh "Hrow" in
      let Hrest := fresh "Hrest" in
      inversion Hr as [|? ? Hrow Hrest]; subst; clear Hr;
      list4 row Hrow
  end.

(** * Theorems *)

(** ** Real-number facts used below *)

Lemma PI_pos : 0 < PI.
Proof. exact PI_RGT_0. Qed.

Lemma EPS_bounds : 0 < tr._EPS < 1.
Proof.
  unfold tr._EPS.
  assert (H : 8 <= 2 ^ 52).
  { replace 8 with (2 ^ 3) by (simpl; lra).
    apply Rle_pow; [lra|lia]. }
  assert (Hinv : 0 < / 2 ^ 52) by (apply Rinv_0_lt_compat; lra).
  split; [lra|].
  apply Rmult_lt_reg_r with (2 ^ 52); [lra|].
  rewrite Rmult_assoc, Rinv_l by lra. lra.
Qed.

(** An angle of the open right half-turn is where the cosine is positive. *)
Lemma cos_pos_range (t : R) :
  - PI < t <= PI -> 0 < cos t -> - (PI / 2) < t < PI / 2.
Proof.
  intros [Hlo Hhi] Hc. pose proof PI_pos as Hpi. split.
  - destruct (Rlt_dec (- (PI / 2)) t) as [|Hn]; [assumption|exfalso].
    assert (Hle : cos (- t) <= 0) by (apply cos_le_0; lra).
    rewrite cos_neg in Hle. lra.
  - destruct (Rlt_dec t (PI / 2)) as [|Hn]; [assumption|exfalso].
    assert (Hle : cos t <= 0) by (apply cos_le_0; lra).
    lra.
Qed.

Lemma tan_shift_PI (t : R) : tan (t - PI) = tan t.
Proof.
  unfold tan. replace (t - PI) with (t + - PI) by ring.
  rewrite sin_plus, cos_plus, sin_neg, cos_neg, sin_PI, cos_PI.
  unfold Rdiv.
  replace (sin t * -1 + cos t * - 0) with (- sin t) by ring.
  replace (cos t * -1 - sin t * - 0) with (- cos t) by ring.
  destruct (Req_dec (cos t) 0) as [Hz|Hnz].
  - rewrite Hz, Ropp_0, Rinv_0. ring.
  - field. assumption.
Qed.

Lemma tan_shift_PI_plus (t : R) : tan (t + PI) = tan t.
Proof.
  rewrite <- (tan_shift_PI (t + PI)). f_equal. ring.
Qed.

Lemma polar_quotient (r t : R) :
  0 < r -> r * sin t / (r * cos t) = tan t.
Proof.
  intros Hr. unfold tan.
  destruct (Req_dec (cos t) 0) as [Hz|Hnz].
  - rewrite Hz, Rmult_0_r. unfold Rdiv. rewrite Rinv_0. ring.
  - field. split; [assumption|lra].
Qed.

(** [atan2] recovers the angle of a point given in polar coordinates. *)
Lemma atan2_polar (r t : R) :
  0 < r -> - PI < t <= PI ->
  tr.atan2 (r * sin t) (r * cos t) = t.
Proof.
  intros Hr [Hlo Hhi]. pose proof PI_pos as Hpi.
  unfold tr.atan2. rewrite polar_quotient by assumption.
  destruct (Rlt_dec 0 (r * cos t)) as [Hx|Hx].
  - assert (Hc : 0 < cos t) by nra.
    apply atan_tan. apply cos_pos_range; [split|]; assumption.
  - destruct (Rlt_dec (r * cos t) 0) as [Hx'|Hx'].
    + assert (Hc : cos t < 0) by nra.
      assert (Hout : t <= - (PI / 2) \/ PI / 2 <= t).
      { destruct (Rle_dec t (- (PI / 2))) as [|H1]; [left; assumption|].
        destruct (Rle_dec (PI / 2) t) as [|H2]; [right; assumption|].
        assert (0 <= cos t) by (apply cos_ge_0; lra). lra. }
      destruct (Rle_dec 0 (r * sin t)) as [Hy|Hy].
      * assert (Hs : 0 <= sin t) by nra.
        assert (Ht : PI / 2 <= t).
        { destruct Hout as [Hneg|]; [|assumption].
          assert (sin t < 0) by (apply sin_lt_0_var; lra). lra. }
        assert (Ht' : PI / 2 < t).
        { destruct Ht as [|Heq]; [assumption|].
          rewrite <- Heq, cos_PI2 in Hc. lra. }
        rewrite <- (tan_shift_PI t), atan_tan by lra. ring.
      * assert (Hs : sin t < 0) by nra.
        assert (Ht : t <= - (PI / 2)).
        { destruct Hout as [|Hposi]; [assumption|].
          assert (0 <= sin t) by (apply sin_ge_0; lra). lra. }
        assert (Ht' : t < - (PI / 2)).
        { destruct Ht as [|Heq]; [assumption|].
          rewrite Heq, cos_neg, cos_PI2 in Hc. lra. }
        rewrite <- (tan_shift_PI_plus t), atan_tan by lra. ring.
    + assert (Hc : cos t = 0) by nra.
      assert (Habs : forall u, 0 <= u <= PI -> cos u = 0 -> u = PI / 2).
      { intros u Hu Hcu. apply cos_inj; [assumption|lra|].
        rewrite cos_PI2. assumption. }
      destruct (Rlt_dec 0 (r * sin t)) as [Hy|Hy].
      * assert (Hs : 0 < sin t) by nra.
        assert (0 <= t).
        { destruct (Rle_dec 0 t) as [|Hn]; [assumption|].
          assert (sin t < 0) by (apply sin_lt_0_var; lra). lra. }
        symmetry. apply Habs; [lra|assumption].
      * destruct (Rlt_dec (r * sin t) 0) as [Hy'|Hy'].
        -- assert (Hs : sin t < 0) by nra.
           assert (t <= 0).
           { destruct (Rle_dec t 0) as [|Hn]; [assumption|].
             assert (0 <= sin t) by (apply sin_ge_0; lra). lra. }
           assert (Hm : - t = PI / 2).
           { apply Habs; [lra|]. rewrite cos_neg. assumption. }
           lra.
        -- exfalso. assert (Hs : sin t = 0) by nra.
           pose proof (sin2_cos2 t) as Hsc. unfold Rsqr in Hsc.
           rewrite Hs, Hc in Hsc. lra.
Qed.

(** ** The pose/matrix transform *)

Lemma to_matrix_static (p o : list R) :
  coordinates_to_transformation_matrix p o tr.sxyz =
  pose_matrix (radians (nth 0 o 0)) (radians (nth 1 o 0)) (radians (nth 2 o 0)) p.
Proof.
  unfold coordinates_to_transformation_matrix, tr.concatenate_matrices,
    tr.euler_matrix, tr.translation_matrix, pose_matrix.
  cbn [tr.frame fold_left].
  unfold matmul, identity, dot, column, Rsum. cbn.
  matrix_entries.
Qed.

Lemma to_matrix_rotating (p o : list R) :
  coordinates_to_transformation_matrix p o tr.rzyx =
  pose_matrix (radians (nth 2 o 0)) (radians (nth 1 o 0)) (radians (nth 0 o 0)) p.
Proof.
  unfold coordinates_to_transformation_matrix, tr.concatenate_matrices,
    tr.euler_matrix, tr.translation_matrix, pose_matrix.
  cbn [tr.frame fold_left].
  unfold matmul, identity, dot, column, Rsum. cbn.
  matrix_entries.
Qed.

Lemma matmul_identity_pose_matrix (ai aj ak : R) (p : list R) :
  matmul (identity 4) (pose_matrix ai aj ak p) = pose_matrix ai aj ak p.
Proof.
  unfold matmul, identity, pose_matrix, dot, column, Rsum. cbn.
  matrix_entries.
Qed.

Lemma degrees_radians (x : R) : degrees (radians x) = x.
Proof.
  unfold degrees, radians. pose proof PI_pos. field. lra.
Qed.

Lemma radians_range (x : R) :
  -180 < x <= 180 -> - PI < radians x <= PI.
Proof.
  intros [Hlo Hhi]. unfold radians. pose proof PI_pos. split; nra.
Qed.

Lemma radians_half_range (x : R) :
  -90 < x < 90 -> - (PI / 2) < radians x < PI / 2.
Proof.
  intros [Hlo Hhi]. unfold radians. pose proof PI_pos. split; nra.
Qed.

(** Away from gimbal lock and inside the principal ranges, the Euler
    angles are read back from the matrix exactly. *)
Lemma euler_from_pose_matrix (ai aj ak : R) (p : list R) (c : tr.axes) :
  - PI < ai <= PI -> - (PI / 2) < aj < PI / 2 -> - PI < ak <= PI ->
  tr._EPS < cos aj ->
  tr.euler_from_matrix (pose_matrix ai aj ak p) c =
  if tr.frame c then (ak, aj, ai) else (ai, aj, ak).
Proof.
  intros Hi Hj Hk Heps. pose proof PI_pos as Hpi.
  pose proof EPS_bounds as [He0 He1].
  assert (Hcj : 0 < cos aj) by lra.
  unfold tr.euler_from_matrix, pose_matrix, mget. cbn [nth].
  assert (Hcy : sqrt (cos aj * cos ak * (cos aj * cos ak) +
                      cos aj * sin ak * (cos aj * sin ak)) = cos aj).
  { replace (cos aj * cos ak * (cos aj * cos ak) +
             cos aj * sin ak * (cos aj * sin ak))
      with (cos aj * cos aj).
    - apply sqrt_square. lra.
    - pose proof (sin2_cos2 ak) as Hsc. unfold Rsqr in Hsc.
      transitivity (cos aj * cos aj * (sin ak * sin ak + cos ak * cos ak)).
      + rewrite Hsc. ring.
      + ring. }
  rewrite Hcy.
  destruct (Rlt_dec tr._EPS (cos aj)) as [_|Hn]; [|contradiction].
  rewrite Ropp_involutive.
  rewrite (atan2_polar (cos aj) ai Hcj Hi).
  rewrite (atan2_polar (cos aj) ak Hcj Hk).
  replace (tr.atan2 (sin aj) (cos aj)) with aj.
  - reflexivity.
  - symmetry. rewrite <- (atan2_polar 1 aj) at 3 by lra.
    rewrite !Rmult_1_l. reflexivity.
Qed.

(** The exact round trip behind the amended round-trip claim. *)
Lemma roundtrip_exact (p o : list R) (c : tr.axes) :
  length p = 3%nat -> length o = 3%nat ->
  -180 < nth 0 o 0 <= 180 -> -90 < nth 1 o 0 < 90 -> -180 < nth 2 o 0 <= 180 ->
  tr._EPS < cos (radians (nth 1 o 0)) ->
  transformation_matrix_to_coordinates
    (coordinates_to_transformation_matrix p o c) c = (p, o).
Proof.
  intros Hp Ho Ha Hb Hg Heps.
  destruct p as [|p0 [|p1 [|p2 [|]]]]; try discriminate.
  destruct o as [|a [|b [|g [|]]]]; try discriminate.
  cbn [nth] in *.
  unfold transformation_matrix_to_coordinates.
  destruct c.
  - rewrite to_matrix_static. cbn [nth].
    rewrite euler_from_pose_matrix;
      auto using radians_range, radians_half_range.
    cbn [tr.frame]. rewrite !degrees_radians. reflexivity.
  - rewrite to_matrix_rotating. cbn [nth].
    rewrite euler_from_pose_matrix;
      auto using radians_range, radians_half_range.
    cbn [tr.frame]. rewrite !degrees_radians. reflexivity.
Qed.

Lemma decode_pose_matrix (a b g : R) (p : list R) (c : tr.axes) :
  length p = 3%nat ->
  -180 < a <= 180 -> -90 < b < 90 -> -180 < g <= 180 ->
  tr._EPS < cos (radians b) ->
  transformation_matrix_to_coordinates
    (pose_matrix (radians a) (radians b) (radians g) p) c =
  (p, if tr.frame c then [g; b; a] else [a; b; g]).
Proof.
  intros Hp Ha Hb Hg Heps.
  destruct p as [|p0 [|p1 [|p2 [|]]]]; try discriminate.
  unfold transformation_matrix_to_coordinates.
  rewrite euler_from_pose_matrix;
    auto using radians_range, radians_half_range.
  destruct c; cbn [tr.frame]; rewrite !degrees_radians; reflexivity.
Qed.

Lemma within_refl (tol : R) (u : list R) : 0 <= tol -> within tol u u.
Proof.
  intros Htol. unfold within. induction u as [|x u IH]; constructor.
  - rewrite Rminus_diag, Rabs_R0. assumption.
  - assumption.
Qed.

Lemma cos_radians_0 : cos (radians 0) = 1.
Proof. unfold radians. rewrite Rmult_0_l. apply cos_0. Qed.

Lemma full_turn_same_matrix (p : list R) (c : tr.axes) :
  coordinates_to_transformation_matrix p [360; 0; 0] c =
  coordinates_to_transformation_matrix p [0; 0; 0] c.
Proof.
  assert (Hs : sin (radians 360) = sin (radians 0)).
  { unfold radians. replace (360 * (PI / 180)) with (2 * PI) by field.
    rewrite Rmult_0_l, sin_2PI, sin_0. reflexivity. }
  assert (Hc : cos (radians 360) = cos (radians 0)).
  { unfold radians. replace (360 * (PI / 180)) with (2 * PI) by field.
    rewrite Rmult_0_l, cos_2PI, cos_0. reflexivity. }
  destruct c.
  - rewrite !to_matrix_static. cbn [nth]. unfold pose_matrix.
    rewrite Hs, Hc. reflexivity.
  - rewrite !to_matrix_rotating. cbn [nth]. unfold pose_matrix.
    rewrite Hs, Hc. reflexivity.
Qed.

(** C7 (amended): for every position p and every orientation o whose first
    and last angle lie in (-180, 180] degrees and whose middle angle lies in
    (-90, 90) degrees away from gimbal lock (the cosine of the middle angle
    exceeds the library's threshold), decoding the matrix built from (p, o)
    under either convention c back under the same c returns (p, o); in
    exact real arithmetic the result is (p, o) itself, hence within the
    tolerance 1e-6. *)
Theorem roundtrip_in_principal_range (p o : list R) (c : tr.axes) :
  length p = 3%nat -> length o = 3%nat ->
  -180 < nth 0 o 0 <= 180 -> -90 < nth 1 o 0 < 90 -> -180 < nth 2 o 0 <= 180 ->
  tr._EPS < cos (radians (nth 1 o 0)) ->
  transformation_matrix_to_coordinates
    (coordinates_to_transformation_matrix p o c) c = (p, o) /\
  roundtrip_within (1 / 1000000) p o c.
Proof.
  intros Hp Ho Ha Hb Hg Heps.
  pose proof (roundtrip_exact p o c Hp Ho Ha Hb Hg Heps) as Heq.
  split; [assumption|].
  unfold roundtrip_within. rewrite Heq.
  split; apply within_refl; lra.
Qed.

Lemma roundtrip_in_principal_range_witness :
  transformation_matrix_to_coordinates
    (coordinates_to_transformation_matrix [1; 2; 3] [10; 0; -30] tr.rzyx)
    tr.rzyx = ([1; 2; 3], [10; 0; -30]) /\
  roundtrip_within (1 / 1000000) [1; 2; 3] [10; 0; -30] tr.rzyx.
Proof.
  apply (roundtrip_in_principal_range [1; 2; 3] [10; 0; -30] tr.rzyx);
    cbn [nth length]; try reflexivity; try lra.
  rewrite cos_radians_0. pose proof EPS_bounds. lra.
Defined.

(** C7 as stated fails: the orientation (360, 0, 0) degrees is far from
    gimbal lock, yet its matrix is the identity rotation and decodes to
    (0, 0, 0), which is 360 degrees away from the input. *)
Lemma roundtrip_fails_for_full_turn :
  tr._EPS < cos (radians (nth 1 [360; 0; 0] 0)) /\
  ~ roundtrip_within (1 / 1000000) [0; 0; 0] [360; 0; 0] tr.sxyz.
Proof.
  cbn [nth]. rewrite cos_radians_0. pose proof EPS_bounds as [He0 He1].
  split; [lra|].
  unfold roundtrip_within. rewrite full_turn_same_matrix.
  rewrite (roundtrip_exact [0; 0; 0] [0; 0; 0] tr.sxyz);
    cbn [nth length]; try reflexivity; try lra;
    [|rewrite cos_radians_0; lra].
  intros [_ Ho]. unfold within in Ho. inversion Ho as [|x y u v Hxy Hrest]; subst.
  rewrite Rabs_left in Hxy; lra.
Qed.

(** ** The frame converter *)

(** The conversion of one marker, with the calibration matrix set. *)
Lemma transformation_tracker_to_robot_set (m : matrix) (pose : list R) :
  transformation_tracker_to_robot (Some m) pose =
  Returned (Some (convert_marker_spec tr.rzyx m pose)).
Proof.
  unfold transformation_tracker_to_robot, convert_marker_spec.
  cbn [py_matmul Py.bind].
  destruct (transformation_matrix_to_coordinates _ tr.rzyx) as [t a].
  reflexivity.
Qed.

(** C1 (amended): for every tracker sample and every set tracker-to-robot
    matrix, the frame conversion of each of the 3 marker poses builds the
    marker's matrix under the rotating-ZYX convention, left-multiplies it by
    the tracker-to-robot matrix, and decodes the product back to a pose
    under the same rotating-ZYX convention. *)
Theorem frame_conversion_decodes_rotating
    (m : matrix) (sample : list (list R)) :
  transform_tracker_to_robot (Some m) sample =
  Returned (toRobotFrame_spec tr.rzyx m sample).
Proof.
  unfold transform_tracker_to_robot, toRobotFrame_spec.
  rewrite !transformation_tracker_to_robot_set.
  cbn [Py.bind map]. reflexivity.
Qed.

Lemma convert_quarter_turn (out : tr.axes) :
  convert_marker_spec out (identity 4) [0; 0; 0; 90; 0; 0] =
  [0; 0; 0] ++ (if tr.frame out then [90; 0; 0] else [0; 0; 90]).
Proof.
  unfold convert_marker_spec. cbn [firstn skipn].
  rewrite to_matrix_rotating. cbn [nth].
  rewrite matmul_identity_pose_matrix.
  rewrite decode_pose_matrix; try reflexivity; try lra.
  rewrite cos_radians_0. pose proof EPS_bounds. lra.
Qed.

(** C1 as stated fails: with the identity calibration, the marker pose
    (0, 0, 0, 90, 0, 0) comes back unchanged, whereas a static-XYZ decoding
    of the same matrix is (0, 0, 0, 0, 0, 90). *)
Lemma frame_conversion_not_static :
  let sample := [[0; 0; 0; 90; 0; 0]; [0; 0; 0; 0; 0; 0]; [0; 0; 0; 0; 0; 0]] in
  transform_tracker_to_robot (Some (identity 4)) sample <>
  Returned (toRobotFrame_spec tr.sxyz (identity 4) sample).
Proof.
  intros sample Heq.
  unfold transform_tracker_to_robot, toRobotFrame_spec, sample in Heq.
  cbn [nth map] in Heq.
  rewrite !transformation_tracker_to_robot_set in Heq.
  cbn [Py.bind] in Heq.
  rewrite !convert_quarter_turn in Heq. cbn [tr.frame app] in Heq.
  injection Heq as H90 _. lra.
Qed.

(** C2: the code at the failing input.  With the calibration matrix unset,
    the product in the first marker's conversion raises before the
    fallback test is reached, whatever the sample. *)
Theorem frame_conversion_unset_raises (sample : list (list R)) :
  transform_tracker_to_robot None sample = Raised MatmulOperandError.
Proof. reflexivity. Qed.

(** ** The head-center estimator *)

(** C3 (amended): for every current head pose, if the 3 fiducial matrices
    are unset, the head-center estimation does not return: the matrix
    product with the unset left-ear matrix raises, and the exception
    propagates to the caller. *)
Theorem head_center_unset_raises (self : TrackerProcessing) (h : list R) :
  matrix_tracker_fiducials self = [None; None; None] ->
  estimate_head_center self h = Raised MatmulOperandError.
Proof.
  intros Hf. unfold estimate_head_center. rewrite Hf.
  cbn [py_matmul Py.bind]. reflexivity.
Qed.

Lemma head_center_unset_raises_witness :
  estimate_head_center TrackerProcessing_init [0; 0; 0; 0; 0; 0] =
  Raised MatmulOperandError.
Proof.
  apply (head_center_unset_raises TrackerProcessing_init [0; 0; 0; 0; 0; 0]).
  reflexivity.
Defined.

(** C3 as stated fails: on a fresh instance, whose fiducials are unset,
    the call with the all-zero head pose returns no status to its caller. *)
Lemma head_center_unset_is_a_fault :
  ~ Py.returns (estimate_head_center TrackerProcessing_init [0; 0; 0; 0; 0; 0]).
Proof.
  intros [center Hcenter]. unfold estimate_head_center in Hcenter.
  cbn [TrackerProcessing_init matrix_tracker_fiducials repeat py_matmul
       Py.bind] in Hcenter.
  discriminate Hcenter.
Qed.

(** ** Versors *)

Lemma Rsum_squares_nonneg (l : list R) :
  0 <= Rsum (map (fun d => d ^ 2) l).
Proof.
  induction l as [|d l IH]; cbn [map Rsum fold_right].
  - lra.
  - fold (Rsum (map (fun d => d ^ 2) l)). pose proof (pow2_ge_0 d). lra.
Qed.

Lemma Rsum_squares_zero (l : list R) :
  Rsum (map (fun d => d ^ 2) l) = 0 -> Forall (fun d => d = 0) l.
Proof.
  induction l as [|d l IH]; cbn [map Rsum fold_right]; intros Hz.
  - constructor.
  - fold (Rsum (map (fun d => d ^ 2) l)) in Hz.
    pose proof (pow2_ge_0 d) as Hd.
    pose proof (Rsum_squares_nonneg l) as Hl.
    constructor.
    + assert (Hd0 : d * d = 0) by lra.
      apply Rmult_integral in Hd0. tauto.
    + apply IH. lra.
Qed.

Lemma vec_sub_zero (u v : list R) :
  length u = length v -> Forall (fun d => d = 0) (vec_sub u v) -> u = v.
Proof.
  revert v. induction u as [|x u IH]; intros [|y v] Hlen Hall;
    try discriminate; [reflexivity|].
  unfold vec_sub in Hall. cbn [combine map fst snd] in Hall.
  inversion Hall as [|d ds Hd Hds]; subst.
  f_equal; [lra|]. apply IH; [auto|assumption].
Qed.

Lemma euclidean_norm_pos (init final : list R) :
  length init = length final -> final <> init ->
  0 < euclidean_norm (vec_sub final init).
Proof.
  intros Hlen Hne. unfold euclidean_norm.
  apply sqrt_lt_R0.
  pose proof (Rsum_squares_nonneg (vec_sub final init)) as [Hpos|Hz];
    [assumption|exfalso].
  apply Hne, vec_sub_zero; [auto|].
  apply Rsum_squares_zero. auto.
Qed.

(** What [compute_versors] returns away from the degenerate case. *)
Lemma compute_versors_formula (scale : R) (init final : list R) :
  length init = length final -> final <> init ->
  compute_versors scale init final =
  map (fun d => Fin (d / euclidean_norm (vec_sub final init) * scale))
      (vec_sub final init).
Proof.
  intros Hlen Hne.
  pose proof (euclidean_norm_pos init final Hlen Hne) as Hpos.
  unfold compute_versors. fold (euclidean_norm (vec_sub final init)).
  apply map_ext. intros d. unfold np_divide.
  destruct (Req_dec_T (euclidean_norm (vec_sub final init)) 0) as [Hz|_].
  - lra.
  - reflexivity.
Qed.

Lemma vec_sub_self (p : list R) : vec_sub p p = repeat 0 (length p).
Proof.
  unfold vec_sub. induction p as [|x p IH]; cbn [combine map length repeat fst snd].
  - reflexivity.
  - rewrite Rminus_diag. f_equal. assumption.
Qed.

Lemma euclidean_norm_zeros (n : nat) : euclidean_norm (repeat 0 n) = 0.
Proof.
  unfold euclidean_norm.
  replace (Rsum (map (fun d => d ^ 2) (repeat 0 n))) with 0.
  - apply sqrt_0.
  - induction n as [|n IH]; cbn [repeat map Rsum fold_right].
    + reflexivity.
    + fold (Rsum (map (fun d => d ^ 2) (repeat 0 n))). rewrite <- IH. ring.
Qed.

Lemma np_divide_zero_by_zero : np_divide 0 0 = NaN.
Proof.
  unfold np_divide. destruct (Req_dec_T 0 0) as [_|Hn]; [|contradiction].
  reflexivity.
Qed.

(** C6 (amended): for the versor computation, if the initial point equals
    the final point, the zero length is not detected: the division of the
    zero difference by the zero norm is carried out, and the call returns a
    versor all of whose components are not-a-number. *)
Theorem versor_of_equal_points (scale : R) (p : list R) :
  compute_versors scale p p = repeat NaN (length p).
Proof.
  unfold compute_versors. fold (euclidean_norm (vec_sub p p)).
  rewrite vec_sub_self, euclidean_norm_zeros.
  induction (length p) as [|n IH]; cbn [repeat map].
  - reflexivity.
  - rewrite np_divide_zero_by_zero. cbn [np_scale]. f_equal. exact IH.
Qed.

(** C6 as stated fails: with the current pose equal to the head center,
    the call returns six not-a-number components instead of signalling. *)
Lemma versor_of_equal_points_not_detected :
  compute_versors 70 [1; 2; 3; 4; 5; 6] [1; 2; 3; 4; 5; 6] =
    [NaN; NaN; NaN; NaN; NaN; NaN] /\
  ~ all_finite (compute_versors 70 [1; 2; 3; 4; 5; 6] [1; 2; 3; 4; 5; 6]).
Proof.
  assert (Hnan : compute_versors 70 [1; 2; 3; 4; 5; 6] [1; 2; 3; 4; 5; 6] =
                 [NaN; NaN; NaN; NaN; NaN; NaN]).
  { unfold compute_versors.
    fold (euclidean_norm (vec_sub [1; 2; 3; 4; 5; 6] [1; 2; 3; 4; 5; 6])).
    rewrite vec_sub_self. cbn [length].
    rewrite euclidean_norm_zeros. cbn [repeat map].
    rewrite np_divide_zero_by_zero. reflexivity. }
  rewrite Hnan. split; [reflexivity|].
  intros Hall. inversion Hall as [|v l Hv _]; subst. discriminate Hv.
Qed.

(** The positional share of a scaled unit vector is shorter than the scale
    as soon as one of the other components is non-zero. *)
Lemma positional_share_bound (s d0 d1 d2 d3 d4 d5 : R) :
  0 < s -> [d3; d4; d5] <> [0; 0; 0] ->
  let n := euclidean_norm [d0; d1; d2; d3; d4; d5] in
  norm3 [d0 / n * s; d1 / n * s; d2 / n * s] < s.
Proof.
  intros Hs Hori n.
  set (P := d0 * d0 + d1 * d1 + d2 * d2).
  set (O := d3 * d3 + d4 * d4 + d5 * d5).
  assert (HP : 0 <= P) by (unfold P; nra).
  assert (HO : 0 < O).
  { assert (HO0 : 0 <= O) by (unfold O; nra).
    destruct HO0 as [|HO0]; [assumption|exfalso].
    apply Hori. unfold O in HO0.
    assert (d3 * d3 = 0) by nra. assert (d4 * d4 = 0) by nra.
    assert (d5 * d5 = 0) by nra.
    repeat match goal with
    | H : ?x * ?x = 0 |- _ =>
        apply Rmult_integral in H; assert (x = 0) by tauto; clear H
    end.
    subst. reflexivity. }
  assert (Hsum : Rsum (map (fun d => d ^ 2) [d0; d1; d2; d3; d4; d5]) = P + O).
  { unfold P, O. cbn [map Rsum fold_right]. ring. }
  assert (Hnn : n * n = P + O).
  { unfold n, euclidean_norm. rewrite Hsum. apply sqrt_def. lra. }
  assert (Hn : 0 < n).
  { unfold n, euclidean_norm. rewrite Hsum. apply sqrt_lt_R0. lra. }
  unfold norm3. cbn [nth].
  apply Rlt_le_trans with (sqrt (s * s));
    [|rewrite sqrt_square by lra; lra].
  apply sqrt_lt_1.
  - nra.
  - nra.
  - replace ((d0 / n * s) ^ 2 + (d1 / n * s) ^ 2 + (d2 / n * s) ^ 2)
      with (s * s * (P / (n * n))) by (unfold P; field; lra).
    rewrite Hnn.
    replace (P / (P + O)) with (1 - O / (P + O)) by (field; lra).
    assert (Ht : 0 < O / (P + O)) by (apply Rdiv_lt_0_compat; lra).
    set (t := O / (P + O)) in *.
    assert (0 < s * s * t) by (apply Rmult_lt_0_compat; [apply Rmult_lt_0_compat|]; assumption).
    lra.
Qed.

Lemma versor_positional_bound (s : R) (init final : list R) :
  0 < s -> length init = 6%nat -> length final = 6%nat ->
  skipn 3 final <> skipn 3 init ->
  exists v,
    compute_versors s init final = map Fin v /\ length v = 6%nat /\
    norm3 v < s.
Proof.
  intros Hs Hi Hf Hori.
  assert (Hne : final <> init) by (intros ->; apply Hori; reflexivity).
  rewrite compute_versors_formula by (auto; congruence).
  exists (map (fun d => d / euclidean_norm (vec_sub final init) * s)
              (vec_sub final init)).
  split; [rewrite map_map; reflexivity|].
  list6 init Hi. list6 final Hf. cbn [skipn] in Hori.
  unfold vec_sub. cbn [combine map fst snd].
  split; [reflexivity|].
  apply positional_share_bound; [assumption|].
  intros Heq. apply Hori. injection Heq as H3 H4 H5.
  f_equal; [lra|]. f_equal; [lra|]. f_equal; lra.
Qed.

(** C10 (amended): for six-component points init and final with
    final <> init, compute_versors returns (final - init) scaled by
    ROBOT_VERSOR_SCALE_FACTOR and divided by the Euclidean norm of
    (final - init) over all six components.  Consequently, for a positive
    scale factor, the positional part of a versor is strictly shorter than
    the scale factor whenever the orientation components of the two points
    differ.  In the arc planner, whose head-center argument carries the new
    pose's orientation, the move-out offset is such a versor and is
    strictly shorter than the scale factor whenever the current and the new
    orientation differ; the offset added to the midpoint is twice its
    versor and is strictly shorter than twice the scale factor whenever the
    new orientation is not zero. *)
Theorem versor_formula_and_positional_bound
    (s : R) (init final current head_center new : list R) :
  length init = 6%nat -> length final = 6%nat -> final <> init ->
  length current = 6%nat -> length new = 6%nat ->
  compute_versors s init final =
    map (fun d => Fin (d / euclidean_norm (vec_sub final init) * s))
        (vec_sub final init) /\
  (0 < s -> skipn 3 final <> skipn 3 init ->
   exists v, compute_versors s init final = map Fin v /\ norm3 v < s) /\
  (0 < s -> skipn 3 current <> skipn 3 new ->
   exists off,
     fst (compute_arc_motion s current head_center new) =
       [Fin (nth 0 current 0 + nth 0 off 0);
        Fin (nth 1 current 0 + nth 1 off 0);
        Fin (nth 2 current 0 + nth 2 off 0);
        Fin (nth 3 current 0); Fin (nth 4 current 0); Fin (nth 5 current 0)] /\
     norm3 off < s) /\
  (0 < s -> skipn 3 new <> [0; 0; 0] ->
   exists off,
     firstn 3 (snd (compute_arc_motion s current head_center new)) =
       [Fin (nth 0 (position_midpoint current new) 0 + nth 0 off 0);
        Fin (nth 1 (position_midpoint current new) 0 + nth 1 off 0);
        Fin (nth 2 (position_midpoint current new) 0 + nth 2 off 0)] /\
     norm3 off < 2 * s).
Proof.
  intros Hi Hf Hne Hc Hn. split; [|split; [|split]].
  - apply compute_versors_formula; congruence.
  - intros Hs Hori.
    destruct (versor_positional_bound s init final Hs Hi Hf Hori)
      as (v & Hv & _ & Hb).
    exists v. split; assumption.
  - intros Hs Hori.
    set (hc6 := [nth 0 head_center 0; nth 1 head_center 0; nth 2 head_center 0;
                 nth 3 new 0; nth 4 new 0; nth 5 new 0]).
    assert (Hori' : skipn 3 current <> skipn 3 hc6).
    { list6 new Hn. exact Hori. }
    destruct (versor_positional_bound s hc6 current Hs eq_refl Hc Hori')
      as (v & Hv & Hlen & Hb).
    exists v. split; [|assumption].
    unfold compute_arc_motion. cbn [fst]. fold hc6. rewrite Hv.
    list6 v Hlen. reflexivity.
  - intros Hs Hori.
    set (hc6 := [nth 0 head_center 0; nth 1 head_center 0; nth 2 head_center 0;
                 nth 3 new 0; nth 4 new 0; nth 5 new 0]).
    set (mid6 := [(nth 0 new 0 + nth 0 current 0) / 2;
                  (nth 1 new 0 + nth 1 current 0) / 2;
                  (nth 2 new 0 + nth 2 current 0) / 2; 0; 0; 0]).
    assert (Hori' : skipn 3 mid6 <> skipn 3 hc6).
    { list6 new Hn. cbn [skipn mid6 hc6 nth] in *. congruence. }
    destruct (versor_positional_bound s hc6 mid6 Hs eq_refl eq_refl Hori')
      as (v & Hv & Hlen & Hb).
    exists [nth 0 v 0 * 2; nth 1 v 0 * 2; nth 2 v 0 * 2]. split.
    + unfold compute_arc_motion, position_midpoint. cbn [snd].
      fold hc6. fold mid6. rewrite Hv.
      list6 v Hlen. reflexivity.
    + unfold norm3 in *. cbn [nth].
      replace ((nth 0 v 0 * 2) ^ 2 + (nth 1 v 0 * 2) ^ 2 + (nth 2 v 0 * 2) ^ 2)
        with (2 * 2 * (nth 0 v 0 ^ 2 + nth 1 v 0 ^ 2 + nth 2 v 0 ^ 2)) by ring.
      rewrite sqrt_mult_alt by lra.
      rewrite sqrt_square by lra. lra.
Qed.

Lemma versor_formula_and_positional_bound_witness :
  let init := [0; 0; 0; 10; 0; 0] in
  let final := [3; 4; 0; 0; 0; 0] in
  compute_versors 70 init final =
    map (fun d => Fin (d / euclidean_norm (vec_sub final init) * 70))
        (vec_sub final init) /\
  (exists v, compute_versors 70 init final = map Fin v /\ norm3 v < 70) /\
  (exists off,
     fst (compute_arc_motion 70 final [0; 0; 0] init) =
       [Fin (3 + nth 0 off 0); Fin (4 + nth 1 off 0); Fin (0 + nth 2 off 0);
        Fin 0; Fin 0; Fin 0] /\
     norm3 off < 70) /\
  (exists off,
     firstn 3 (snd (compute_arc_motion 70 final [0; 0; 0] init)) =
       [Fin ((0 + 3) / 2 + nth 0 off 0); Fin ((0 + 4) / 2 + nth 1 off 0);
        Fin ((0 + 0) / 2 + nth 2 off 0)] /\
     norm3 off < 2 * 70).
Proof.
  intros init final.
  assert (Hne : final <> init).
  { unfold init, final. intros H. injection H as H0 _. lra. }
  assert (Hori : skipn 3 final <> skipn 3 init).
  { unfold init, final. cbn [skipn]. intros H. injection H as H0. lra. }
  assert (Hnew : skipn 3 init <> [0; 0; 0]).
  { unfold init. cbn [skipn]. intros H. injection H as H0. lra. }
  destruct (versor_formula_and_positional_bound
              70 init final final [0; 0; 0] init
              eq_refl eq_refl Hne eq_refl eq_refl) as (H1 & H2 & H3 & H4).
  split; [exact H1|]. split; [apply H2; [lra|exact Hori]|].
  split; [apply H3; [lra|exact Hori]|].
  apply H4; [lra|exact Hnew].
Defined.

(** C10 as stated fails for the offset added to the midpoint, which is
    twice its versor: with the scale factor 70, the current pose
    (100, 0, 0, 0, 0, 0), the new pose (100, 0, 0, 1, 0, 0) and the head
    center at the origin, the two points of the versor differ in their
    orientation, yet the middle arc point lies more than 70 away from the
    midpoint (about 139.99). *)
Lemma middle_arc_offset_exceeds_scale :
  let current := [100; 0; 0; 0; 0; 0] in
  let new := [100; 0; 0; 1; 0; 0] in
  let head_center := [0; 0; 0] in
  skipn 3 new <> [0; 0; 0] /\
  exists x y z,
    firstn 3 (snd (compute_arc_motion 70 current head_center new)) =
      [Fin x; Fin y; Fin z] /\
    70 < norm3 [x - nth 0 (position_midpoint current new) 0;
                y - nth 1 (position_midpoint current new) 0;
                z - nth 2 (position_midpoint current new) 0].
Proof.
  intros current new head_center. split.
  { unfold new. cbn [skipn]. intros H. injection H as H0. lra. }
  set (hc6 := [0; 0; 0; 1; 0; 0]).
  set (mid6 := [(100 + 100) / 2; (0 + 0) / 2; (0 + 0) / 2; 0; 0; 0]).
  assert (Hne : mid6 <> hc6).
  { unfold mid6, hc6. intros H. injection H as H0 _. lra. }
  pose proof (euclidean_norm_pos hc6 mid6 eq_refl Hne) as HN.
  assert (HNN : euclidean_norm (vec_sub mid6 hc6) *
                euclidean_norm (vec_sub mid6 hc6) = 10001).
  { unfold euclidean_norm. rewrite sqrt_def.
    - unfold vec_sub, mid6, hc6, Rsum. cbn [combine map fst snd fold_right].
      field.
    - apply Rsum_squares_nonneg. }
  unfold compute_arc_motion, position_midpoint, current, new, head_center.
  cbn [snd nth]. fold hc6. fold mid6.
  rewrite (compute_versors_formula 70 hc6 mid6 eq_refl Hne).
  set (N := euclidean_norm (vec_sub mid6 hc6)) in *.
  unfold vec_sub, mid6, hc6.
  cbn [combine map fst snd nth np_scale np_add app firstn].
  eexists _, _, _. split; [reflexivity|].
  unfold norm3. cbn [nth].
  apply Rle_lt_trans with (sqrt (70 * 70));
    [rewrite sqrt_square by lra; lra|].
  apply sqrt_lt_1.
  - lra.
  - repeat apply Rplus_le_le_0_compat; apply pow2_ge_0.
  - replace (((100 + 100) / 2 + ((100 + 100) / 2 - 0) / N * 70 * 2 -
              (100 + 100) / 2) ^ 2 +
             ((0 + 0) / 2 + ((0 + 0) / 2 - 0) / N * 70 * 2 - (0 + 0) / 2) ^ 2 +
             ((0 + 0) / 2 + ((0 + 0) / 2 - 0) / N * 70 * 2 - (0 + 0) / 2) ^ 2)
      with (196000000 / (N * N)) by (field; lra).
    rewrite HNN. lra.
Qed.

(** ** The arc planner *)

(** C8 (amended): for a positive scale factor, for every pair of current and
    new robot poses and every head-center point that differs from the
    position midpoint of the two poses, the middle arc point produced by the
    arc planner is finite and lies strictly farther from the head center
    than the position midpoint does. *)
Theorem arc_bows_outward_off_center
    (s : R) (current head_center new : list R) :
  0 < s -> length current = 6%nat -> length new = 6%nat ->
  length head_center = 3%nat ->
  position_midpoint current new <> head_center ->
  bows_outward s current head_center new.
Proof.
  intros Hs Hc Hn Hh Hmid.
  list6 current Hc. list6 new Hn. list3 head_center Hh.
  unfold position_midpoint in Hmid. cbn [nth] in Hmid.
  unfold bows_outward, compute_arc_motion, position_midpoint. cbn [nth snd].
  match goal with
  | |- context [compute_versors s ?a ?b] =>
      match b with
      | [_; _; _; 0; 0; 0] => set (hc6 := a); set (mid6 := b)
      end
  end.
  assert (Hne : mid6 <> hc6).
  { intros Heq. apply Hmid. unfold mid6, hc6 in Heq.
    injection Heq as H0 H1 H2 _ _ _. rewrite H0, H1, H2. reflexivity. }
  rewrite (compute_versors_formula s hc6 mid6 eq_refl Hne).
  pose proof (euclidean_norm_pos hc6 mid6 eq_refl Hne) as HN.
  set (N := euclidean_norm (vec_sub mid6 hc6)) in *.
  unfold vec_sub, mid6, hc6.
  cbn [combine map fst snd nth np_scale np_add app firstn].
  set (m0 := (r5 + r) / 2) in *. set (m1 := (r6 + r0) / 2) in *.
  set (m2 := (r7 + r1) / 2) in *.
  eexists _, _, _. split; [reflexivity|].
  unfold distance3. cbn [nth].
  set (E := (m0 - r11) * (m0 - r11) + (m1 - r12) * (m1 - r12) +
            (m2 - r13) * (m2 - r13)).
  pose proof (Rle_0_sqr (m0 - r11)) as Hs0.
  pose proof (Rle_0_sqr (m1 - r12)) as Hs1.
  pose proof (Rle_0_sqr (m2 - r13)) as Hs2.
  unfold Rsqr in Hs0, Hs1, Hs2.
  assert (HE : 0 < E).
  { assert (HE0 : 0 <= E) by (unfold E; lra).
    destruct HE0 as [|HE0]; [assumption|exfalso].
    apply Hmid. unfold E in HE0.
    assert (H0 : (m0 - r11) * (m0 - r11) = 0) by lra.
    assert (H1 : (m1 - r12) * (m1 - r12) = 0) by lra.
    assert (H2 : (m2 - r13) * (m2 - r13) = 0) by lra.
    apply Rmult_integral in H0, H1, H2.
    f_equal; [lra|]. f_equal; [lra|]. f_equal; lra. }
  assert (Hk : 0 < 2 * s / N) by (apply Rdiv_lt_0_compat; lra).
  set (k := 2 * s / N) in *.
  apply sqrt_lt_1.
  - cbn [pow]. rewrite !Rmult_1_r. lra.
  - repeat apply Rplus_le_le_0_compat; apply pow2_ge_0.
  - replace ((m0 - r11) ^ 2 + (m1 - r12) ^ 2 + (m2 - r13) ^ 2) with E
      by (unfold E; ring).
    replace ((m0 + (m0 - r11) / N * s * 2 - r11) ^ 2 +
             (m1 + (m1 - r12) / N * s * 2 - r12) ^ 2 +
             (m2 + (m2 - r13) / N * s * 2 - r13) ^ 2)
      with ((1 + k) * (1 + k) * E) by (unfold E, k; field; lra).
    assert (0 < k * E) by (apply Rmult_lt_0_compat; assumption).
    assert (0 < k * (k * E)) by (apply Rmult_lt_0_compat; assumption).
    lra.
Qed.


Lemma arc_bows_outward_off_center_witness :
  bows_outward 70 [10; 0; 0; 0; 0; 0] [0; 0; 0] [0; 10; 0; 0; 0; 0].
Proof.
  apply (arc_bows_outward_off_center
           70 [10; 0; 0; 0; 0; 0] [0; 0; 0] [0; 10; 0; 0; 0; 0]);
    try reflexivity; try lra.
  unfold position_midpoint. cbn [nth]. intros H. injection H as H0 _ _. lra.
Defined.

(** C8 as stated fails: the two poses below differ and none of the three
    versors of the planner is degenerate (every output is finite), but the
    position midpoint is the head center itself, so the middle arc point
    stays on it and is not strictly farther away. *)
Lemma arc_flat_through_head_center :
  let current := [1; 0; 0; 0; 0; 0] in
  let new := [-1; 0; 0; 10; 0; 0] in
  let head_center := [0; 0; 0] in
  current <> new /\
  all_finite (fst (compute_arc_motion 70 current head_center new) ++
              snd (compute_arc_motion 70 current head_center new)) /\
  ~ bows_outward 70 current head_center new.
Proof.
  intros current new head_center.
  assert (H1 : current <> [0; 0; 0; 10; 0; 0]).
  { unfold current. intros H. injection H as H0 _. lra. }
  assert (H2 : [(-1 + 1) / 2; (0 + 0) / 2; (0 + 0) / 2; 0; 0; 0]
               <> [0; 0; 0; 10; 0; 0]).
  { intros H. injection H as _ _ _ H3. lra. }
  assert (H3 : new <> [0; 0; 0; 10; 0; 0]).
  { unfold new. intros H. injection H as H0. lra. }
  assert (Hout : compute_arc_motion 70 current head_center new =
    (let n1 := euclidean_norm (vec_sub current [0; 0; 0; 10; 0; 0]) in
     let n2 := euclidean_norm
       (vec_sub [(-1 + 1) / 2; (0 + 0) / 2; (0 + 0) / 2; 0; 0; 0]
                [0; 0; 0; 10; 0; 0]) in
     let n3 := euclidean_norm (vec_sub new [0; 0; 0; 10; 0; 0]) in
     ([Fin (1 + (1 - 0) / n1 * 70); Fin (0 + (0 - 0) / n1 * 70);
       Fin (0 + (0 - 0) / n1 * 70); Fin 0; Fin 0; Fin 0],
      [Fin ((-1 + 1) / 2 + ((-1 + 1) / 2 - 0) / n2 * 70 * 2);
       Fin ((0 + 0) / 2 + ((0 + 0) / 2 - 0) / n2 * 70 * 2);
       Fin ((0 + 0) / 2 + ((0 + 0) / 2 - 0) / n2 * 70 * 2);
       Fin (-1 + (-1 - 0) / n3 * 70); Fin (0 + (0 - 0) / n3 * 70);
       Fin (0 + (0 - 0) / n3 * 70); Fin 10; Fin 0; Fin 0; Fin 0]))).
  { unfold compute_arc_motion. subst current new head_center. cbn [nth].
    rewrite (compute_versors_formula
               70 [0; 0; 0; 10; 0; 0] [1; 0; 0; 0; 0; 0] eq_refl H1).
    rewrite (compute_versors_formula
               70 [0; 0; 0; 10; 0; 0]
               [(-1 + 1) / 2; (0 + 0) / 2; (0 + 0) / 2; 0; 0; 0] eq_refl H2).
    rewrite (compute_versors_formula
               70 [0; 0; 0; 10; 0; 0] [-1; 0; 0; 10; 0; 0] eq_refl H3).
    reflexivity. }
  split; [|split].
  - unfold current, new. intros H. injection H as H0 _. lra.
  - rewrite Hout. cbn [fst snd app]. repeat constructor.
  - intros (x & y & z & Heq & Hlt). rewrite Hout in Heq.
    cbn [snd firstn] in Heq. injection Heq as Hx Hy Hz.
    unfold distance3, position_midpoint, current, new, head_center in Hlt.
    cbn [nth] in Hlt.
    assert (Hx0 : x = 0) by (rewrite <- Hx; unfold Rdiv; ring).
    assert (Hy0 : y = 0) by (rewrite <- Hy; unfold Rdiv; ring).
    assert (Hz0 : z = 0) by (rewrite <- Hz; unfold Rdiv; ring).
    rewrite Hx0, Hy0, Hz0 in Hlt.
    replace (((-1 + 1) / 2 - 0) ^ 2 + ((0 + 0) / 2 - 0) ^ 2 +
             ((0 + 0) / 2 - 0) ^ 2)
      with ((0 - 0) ^ 2 + (0 - 0) ^ 2 + (0 - 0) ^ 2) in Hlt
      by (unfold Rdiv; ring).
    lra.
Qed.

(** ** The sliding windows *)

Lemma length_snoc {A : Type} (w : list A) (x : A) :
  length (w ++ [x]) = S (length w).
Proof. rewrite length_app. cbn [length]. lia. Qed.

Lemma length_tl_snoc {A : Type} (w : list A) (x : A) :
  length (tl (w ++ [x])) = length w.
Proof.
  destruct w as [|y w]; cbn [app tl length]; [reflexivity|].
  apply length_snoc.
Qed.

(** The state that a call of [kalman_filter] leaves behind. *)
Lemma kalman_filter_state (self : TrackerProcessing) (c : list R) :
  let self' := snd (kalman_filter self c) in
  let window := kalman_coord_vector self ++ [firstn 3 (filtered_pose self c)] in
  coord_vel self' = coord_vel self /\
  timestamp self' = timestamp self /\
  velocity_vector self' = velocity_vector self /\
  velocity_std self' = velocity_std self /\
  matrix_tracker_fiducials self' = matrix_tracker_fiducials self /\
  tracker_stabilizers self' =
    fst (update_stabilizers (firstn 3 c ++ skipn 3 c) (tracker_stabilizers self)) /\
  kalman_coord_vector self' =
    if (length window <? 20)%nat then window else tl window.
Proof.
  unfold kalman_filter, filtered_pose.
  destruct (update_stabilizers (firstn 3 c ++ skipn 3 c)
                               (tracker_stabilizers self)) as [stabs ck].
  cbn [fst snd coord_vel timestamp velocity_vector velocity_std
       matrix_tracker_fiducials tracker_stabilizers kalman_coord_vector].
  repeat split; try reflexivity.
  destruct (length (kalman_coord_vector self ++ [firstn 3 ck]) <? 20)%nat;
    reflexivity.
Qed.

(** The value that a call of [kalman_filter] returns. *)
Lemma kalman_filter_value (self : TrackerProcessing) (c : list R) :
  fst (kalman_filter self c) =
  if (S (length (kalman_coord_vector self)) <? 20)%nat then c
  else filtered_pose self c.
Proof.
  unfold kalman_filter, filtered_pose.
  destruct (update_stabilizers (firstn 3 c ++ skipn 3 c)
                               (tracker_stabilizers self)) as [stabs ck].
  cbn [fst snd]. rewrite length_snoc.
  destruct (S (length (kalman_coord_vector self)) <? 20)%nat; reflexivity.
Qed.

(** The state that a call of [compute_head_move_threshold] leaves behind. *)
Lemma threshold_state (thr : R) (self : TrackerProcessing) (c : list R) (now : R) :
  let self' := snd (compute_head_move_threshold thr self c now) in
  let poses := coord_vel self ++ [c] in
  let times := timestamp self ++ [now] in
  let velocities :=
    velocity_vector self ++ [fst (estimate_head_velocity poses times)] in
  kalman_coord_vector self' = kalman_coord_vector self /\
  tracker_stabilizers self' = tracker_stabilizers self /\
  matrix_tracker_fiducials self' = matrix_tracker_fiducials self /\
  if (10 <=? length poses)%nat then
    coord_vel self' = tl poses /\ timestamp self' = tl times /\
    if (30 <=? length velocities)%nat then
      velocity_vector self' = tl velocities /\
      velocity_std self' = np_std velocities
    else
      velocity_vector self' = velocities /\
      velocity_std self' = velocity_std self
  else
    coord_vel self' = poses /\ timestamp self' = times /\
    velocity_vector self' = velocity_vector self /\
    velocity_std self' = velocity_std self.
Proof.
  unfold compute_head_move_threshold.
  destruct (10 <=? length (coord_vel self ++ [c]))%nat.
  - destruct (estimate_head_velocity (coord_vel self ++ [c])
                                     (timestamp self ++ [now])) as [v d].
    cbn [fst snd coord_vel timestamp velocity_vector velocity_std
         matrix_tracker_fiducials tracker_stabilizers kalman_coord_vector].
    destruct (30 <=? length (velocity_vector self ++ [v]))%nat;
      repeat split; reflexivity.
  - cbn [fst snd coord_vel timestamp velocity_vector velocity_std
         matrix_tracker_fiducials tracker_stabilizers kalman_coord_vector].
    repeat split; reflexivity.
Qed.

Lemma apply_operation_bounded (thr : R) (self : TrackerProcessing)
    (op : operation) :
  windows_bounded self /\ length (timestamp self) = length (coord_vel self) ->
  windows_bounded (apply_operation thr self op) /\
  length (timestamp (apply_operation thr self op)) =
  length (coord_vel (apply_operation thr self op)).
Proof.
  unfold windows_bounded. intros ((Hc & Ht & Hv & Hk) & Heq).
  destruct op as [f|c|c now|]; cbn [apply_operation].
  - cbn. auto.
  - destruct (kalman_filter_state self c)
      as (Ec & Et & Ev & _ & _ & _ & Ek).
    rewrite Ec, Et, Ev, Ek. repeat split; try assumption.
    destruct (Nat.ltb_spec
                (length (kalman_coord_vector self ++
                         [firstn 3 (filtered_pose self c)])) 20) as [Hlt|Hge].
    + lia.
    + rewrite length_tl_snoc. assumption.
  - destruct (threshold_state thr self c now) as (Ek & _ & _ & Hrest).
    rewrite Ek.
    destruct (Nat.leb_spec 10 (length (coord_vel self ++ [c]))) as [Hge|Hlt].
    + destruct Hrest as (Ec & Et & Hrest). rewrite Ec, Et, !length_tl_snoc.
      destruct (Nat.leb_spec 30
                  (length (velocity_vector self ++
                     [fst (estimate_head_velocity (coord_vel self ++ [c])
                                                  (timestamp self ++ [now]))])))
        as [Hge'|Hlt'];
        destruct Hrest as (Ev & _); rewrite Ev.
      * rewrite length_tl_snoc. auto.
      * repeat split; try assumption. lia.
    + destruct Hrest as (Ec & Et & Ev & _). rewrite Ec, Et, Ev.
      rewrite !length_snoc in *. repeat split; try assumption; lia.
  - auto.
Qed.

Lemma apply_operation_fifo (thr : R) (self : TrackerProcessing)
    (op : operation) :
  windows_fifo self (apply_operation thr self op).
Proof.
  unfold windows_fifo, fifo_step.
  destruct op as [f|c|c now|]; cbn [apply_operation].
  - cbn. auto.
  - destruct (kalman_filter_state self c)
      as (Ec & Et & Ev & _ & _ & _ & Ek).
    rewrite Ec, Et, Ev, Ek. repeat split; try (left; reflexivity).
    right. exists (firstn 3 (filtered_pose self c)).
    destruct (length (kalman_coord_vector self ++
                      [firstn 3 (filtered_pose self c)]) <? 20)%nat; auto.
  - destruct (threshold_state thr self c now) as (Ek & _ & _ & Hrest).
    rewrite Ek.
    destruct (10 <=? length (coord_vel self ++ [c]))%nat.
    + destruct Hrest as (Ec & Et & Hrest). rewrite Ec, Et.
      split; [right; exists c; auto|].
      split; [right; exists now; auto|].
      split; [|left; reflexivity].
      right.
      exists (fst (estimate_head_velocity (coord_vel self ++ [c])
                                          (timestamp self ++ [now]))).
      destruct (30 <=? length _)%nat; destruct Hrest as (Ev & _); auto.
    + destruct Hrest as (Ec & Et & Ev & _). rewrite Ec, Et, Ev.
      split; [right; exists c; auto|].
      split; [right; exists now; auto|].
      split; left; reflexivity.
  - repeat split; left; reflexivity.
Qed.

Lemma run_bounded (thr : R) (ops : list operation) (self : TrackerProcessing) :
  windows_bounded self /\ length (timestamp self) = length (coord_vel self) ->
  windows_bounded (run thr self ops).
Proof.
  unfold run. revert self.
  induction ops as [|op ops IH]; intros self Hb; cbn [fold_left].
  - apply Hb.
  - apply IH, apply_operation_bounded, Hb.
Qed.

(** C9: after every sequence of operations on a TrackerProcessing instance,
    the head-pose and timestamp windows each hold at most 10 entries, the
    velocity window at most 30 and the Kalman warm-up window at most 20;
    every operation leaves a window as it is, appends one entry at its end,
    or appends one entry and evicts the oldest, so no window grows without
    bound. *)
Theorem windows_stay_bounded (thr : R) (ops : list operation) :
  windows_bounded (run thr TrackerProcessing_init ops) /\
  (forall self op, windows_fifo self (apply_operation thr self op)).
Proof.
  split.
  - apply run_bounded. unfold windows_bounded. cbn. lia.
  - intros self op. apply apply_operation_fifo.
Qed.

(** ** The Kalman filter *)

(** One correction step on a predicted covariance [[a, b], [b, c]] with the
    measurement row [1, 1] and measurement noise [r]. *)
Lemma correction_keeps_covariance (a b c r : R) :
  0 < a -> 0 < c -> 0 <= b -> b * b <= a * c -> 0 < r ->
  let u0 := a + b in
  let u1 := b + c in
  let S := u0 + u1 + r in
  0 <= a - u0 / S * u0 /\
  0 <= c - u1 / S * u1 /\
  (b - u0 / S * u1) * (b - u0 / S * u1) <=
    (a - u0 / S * u0) * (c - u1 / S * u1) /\
  0 <= (b - u0 / S * u1) + (c - u1 / S * u1) /\
  b - u1 / S * u0 = b - u0 / S * u1 /\
  u0 / S < 1.
Proof.
  intros Ha Hc Hb Hdet Hr u0 u1 S.
  assert (HS : 0 < S) by (unfold S, u0, u1; lra).
  assert (Hd : 0 <= a * c - b * b) by lra.
  assert (Har : 0 < a * r) by (apply Rmult_lt_0_compat; assumption).
  assert (Hcr : 0 < c * r) by (apply Rmult_lt_0_compat; assumption).
  split; [|split; [|split; [|split; [|split]]]].
  - replace (a - u0 / S * u0) with ((a * c - b * b + a * r) / S)
      by (unfold S, u0, u1; field; lra).
    apply Rle_mult_inv_pos; lra.
  - replace (c - u1 / S * u1) with ((a * c - b * b + c * r) / S)
      by (unfold S, u0, u1; field; lra).
    apply Rle_mult_inv_pos; lra.
  - assert (Hdiff :
      (a - u0 / S * u0) * (c - u1 / S * u1) -
      (b - u0 / S * u1) * (b - u0 / S * u1) = (a * c - b * b) * r / S)
      by (unfold S, u0, u1; field; lra).
    assert (0 <= (a * c - b * b) * r / S).
    { apply Rle_mult_inv_pos; [|assumption].
      apply Rmult_le_pos; lra. }
    lra.
  - replace (b - u0 / S * u1 + (c - u1 / S * u1)) with (u1 * r / S)
      by (unfold S, u0, u1; field; lra).
    apply Rle_mult_inv_pos; [|assumption].
    apply Rmult_le_pos; unfold u1; lra.
  - unfold Rdiv. ring.
  - apply Rmult_lt_reg_r with S; [assumption|].
    unfold Rdiv. rewrite Rmult_assoc, Rinv_l by lra. unfold S, u1. lra.
Qed.

(** One prediction step on a posterior covariance, with the transition
    matrix [[1, 1], [0, 1]] and process noise [q] on the diagonal. *)
Lemma prediction_keeps_covariance (p00 p01 p11 q : R) :
  0 <= p00 -> 0 <= p11 -> p01 * p01 <= p00 * p11 -> 0 <= p01 + p11 ->
  0 < q ->
  let a := p00 + 2 * p01 + p11 + q in
  let b := p01 + p11 in
  let c := p11 + q in
  0 < a /\ 0 < c /\ 0 <= b /\ b * b <= a * c.
Proof.
  intros H00 H11 Hdet Hb Hq a b c.
  assert (HT : 0 <= p00 + 2 * p01 + p11).
  { destruct H11 as [Hpos|Hz].
    - assert (Hm : 0 <= (p00 + 2 * p01 + p11) * p11).
      { replace ((p00 + 2 * p01 + p11) * p11)
          with ((p00 * p11 - p01 * p01) + (p01 + p11) * (p01 + p11)) by ring.
        pose proof (Rle_0_sqr (p01 + p11)) as Hsq. unfold Rsqr in Hsq. lra. }
      destruct (Rle_lt_dec 0 (p00 + 2 * p01 + p11)) as [|Hneg]; [assumption|].
      assert (0 < - (p00 + 2 * p01 + p11) * p11)
        by (apply Rmult_lt_0_compat; lra).
      lra.
    - rewrite <- Hz in *.
      assert (Hp : p01 * p01 = 0).
      { pose proof (Rle_0_sqr p01) as Hsq. unfold Rsqr in Hsq. lra. }
      apply Rmult_integral in Hp. lra. }
  repeat split; try (unfold a, b, c; lra).
  unfold a, b, c.
  assert (Hexp :
    (p00 + 2 * p01 + p11 + q) * (p11 + q) - (p01 + p11) * (p01 + p11) =
    (p00 * p11 - p01 * p01) + q * (p00 + 2 * p01 + p11) + q * p11 + q * q)
    by ring.
  assert (0 <= q * (p00 + 2 * p01 + p11)) by (apply Rmult_le_pos; lra).
  assert (0 <= q * p11) by (apply Rmult_le_pos; lra).
  assert (0 < q * q) by (apply Rmult_lt_0_compat; lra).
  lra.
Qed.

Lemma stabilizer_init_at_rest :
  stabilizer_at_rest (KalmanTracker_init 2 (1 / 1000) (1 / 10)).
Proof.
  unfold stabilizer_at_rest, covariance_ok. cbn.
  repeat split; try reflexivity; try lra.
  exists (1 / 1000). split; [lra|]. f_equal; f_equal; lra.
Qed.

(** The answer of a stabilizer at rest to one measurement: the corrected
    state is the gain times the measurement, and the gain on the value
    component stays below one. *)
Lemma update_from_rest (k : KalmanTracker) (z : R) :
  stabilizer_at_rest k ->
  exists K0 K1,
    K0 < 1 /\
    state (update_kalman k [z]) = (K0 * z, K1 * z) /\
    cv2.statePost (filter (update_kalman k [z])) = (K0 * z, K1 * z) /\
    cv2.transitionMatrix (filter (update_kalman k [z])) = ((1, 1), (0, 1)) /\
    cv2.measurementMatrix (filter (update_kalman k [z])) = (1, 1) /\
    cv2.processNoiseCov (filter (update_kalman k [z])) =
      cv2.processNoiseCov (filter k) /\
    cv2.measurementNoiseCov (filter (update_kalman k [z])) =
      cv2.measurementNoiseCov (filter k) /\
    covariance_ok (cv2.errorCovPost (filter (update_kalman k [z]))).
Proof.
  intros (HA & HH & (q & Hq & HQ) & Hr & Hx & HP).
  destruct (cv2.errorCovPost (filter k)) as [[p00 p01] [p10 p11]] eqn:HE.
  unfold covariance_ok in HP. cbn [fst snd] in HP.
  destruct HP as (Hsym & H00 & H11 & Hdet & Hb). subst p10.
  destruct (prediction_keeps_covariance p00 p01 p11 q H00 H11 Hdet Hb Hq)
    as (Ha & Hc & Hb' & Hdet').
  set (r := cv2.measurementNoiseCov (filter k)) in *.
  destruct (correction_keeps_covariance _ _ _ r Ha Hc Hb' Hdet' Hr)
    as (C00 & C11 & Cdet & Cb & Csym & Cgain).
  set (a := p00 + 2 * p01 + p11 + q) in *.
  set (b := p01 + p11) in *.
  set (c := p11 + q) in *.
  assert (HS : 0 < a + b + (b + c) + r) by lra.
  set (S := a + b + (b + c) + r) in *.
  exists ((a + b) / S), ((b + c) / S).
  assert (Hstate :
    cv2.statePost (filter (update_kalman k [z])) =
    ((a + b) / S * z, (b + c) / S * z)).
  { unfold update_kalman, cv2.predict, cv2.correct.
    cbn [filter cv2.transitionMatrix cv2.measurementMatrix cv2.processNoiseCov
         cv2.measurementNoiseCov cv2.statePre cv2.statePost cv2.errorCovPre
         cv2.errorCovPost cv2.gain nth fst snd].
    rewrite HA, HH, HQ, Hx, HE. fold r.
    cbn [cv2.mat2_mul cv2.mat2_add cv2.mat2_transpose cv2.mat2_vec
         cv2.row_mat2 cv2.outer2 cv2.mat2_sub fst snd].
    unfold cv2.dot2. cbn [fst snd].
    f_equal; unfold S, a, b, c in *; field; lra. }
  assert (Hcov :
    cv2.errorCovPost (filter (update_kalman k [z])) =
    ((a - (a + b) / S * (a + b), b - (a + b) / S * (b + c)),
     (b - (b + c) / S * (a + b), c - (b + c) / S * (b + c)))).
  { unfold update_kalman, cv2.predict, cv2.correct.
    cbn [filter cv2.transitionMatrix cv2.measurementMatrix cv2.processNoiseCov
         cv2.measurementNoiseCov cv2.statePre cv2.statePost cv2.errorCovPre
         cv2.errorCovPost cv2.gain nth fst snd].
    rewrite HA, HH, HQ, HE. fold r.
    cbn [cv2.mat2_mul cv2.mat2_add cv2.mat2_transpose cv2.mat2_vec
         cv2.row_mat2 cv2.outer2 cv2.mat2_sub fst snd].
    unfold cv2.dot2. cbn [fst snd].
    f_equal; f_equal; unfold S, a, b, c in *; field; lra. }
  split; [exact Cgain|].
  split; [exact Hstate|].
  split; [exact Hstate|].
  split; [exact HA|]. split; [exact HH|].
  split; [reflexivity|]. split; [reflexivity|].
  rewrite Hcov. unfold covariance_ok. cbn [fst snd].
  rewrite Csym. repeat split; assumption.
Qed.

Lemma update_stabilizers_cons (v : R) (vs : list R)
    (k : KalmanTracker) (ks : list KalmanTracker) :
  update_stabilizers (v :: vs) (k :: ks) =
  (update_kalman k [v] :: fst (update_stabilizers vs ks),
   fst (state (update_kalman k [v])) :: snd (update_stabilizers vs ks)).
Proof.
  cbn [update_stabilizers]. destruct (update_stabilizers vs ks). reflexivity.
Qed.

Lemma update_stabilizers_length (vs : list R) (ks : list KalmanTracker) :
  length (fst (update_stabilizers vs ks)) = length ks.
Proof.
  revert ks. induction vs as [|v vs IH]; intros [|k ks]; try reflexivity.
  rewrite update_stabilizers_cons. cbn [fst length]. rewrite IH. reflexivity.
Qed.

Lemma update_stabilizers_rest (vs : list R) (ks : list KalmanTracker) :
  Forall (fun v => v = 0) vs -> Forall stabilizer_at_rest ks ->
  Forall stabilizer_at_rest (fst (update_stabilizers vs ks)).
Proof.
  revert ks. induction vs as [|v vs IH]; intros [|k ks] Hv Hk;
    try assumption.
  rewrite update_stabilizers_cons. cbn [fst].
  inversion Hv as [|? ? Hv0 Hvs]; subst.
  inversion Hk as [|? ? Hk0 Hks]; subst.
  constructor; [|apply IH; assumption].
  destruct (update_from_rest k 0 Hk0)
    as (K0 & K1 & _ & _ & Hx & HA & HH & HQ & HR & HP).
  destruct Hk0 as (_ & _ & Hq & Hr & _ & _).
  unfold stabilizer_at_rest. rewrite HA, HH, HQ, HR, Hx.
  split; [reflexivity|]. split; [reflexivity|].
  split; [assumption|]. split; [assumption|].
  split; [f_equal; ring|assumption].
Qed.

Lemma kalman_ticks_snoc (self : TrackerProcessing)
    (inputs : list (list R)) (c : list R) :
  kalman_ticks self (inputs ++ [c]) =
  snd (kalman_filter (kalman_ticks self inputs) c).
Proof. unfold kalman_ticks. rewrite fold_left_app. reflexivity. Qed.

Lemma kalman_ticks_rest (n : nat) :
  let self := kalman_ticks TrackerProcessing_init (repeat zero_pose n) in
  Forall stabilizer_at_rest (tracker_stabilizers self) /\
  length (tracker_stabilizers self) = 6%nat.
Proof.
  induction n as [|n [IHrest IHlen]].
  - split; [|reflexivity].
    unfold kalman_ticks.
    cbn [repeat fold_left TrackerProcessing_init tracker_stabilizers].
    apply Forall_forall. intros k Hin. apply in_map_iff in Hin.
    destruct Hin as (i & <- & _). apply stabilizer_init_at_rest.
  - replace (repeat zero_pose (S n)) with (repeat zero_pose n ++ [zero_pose])
      by (symmetry; apply repeat_cons).
    cbv zeta. rewrite kalman_ticks_snoc.
    destruct (kalman_filter_state
                (kalman_ticks TrackerProcessing_init (repeat zero_pose n))
                zero_pose) as (_ & _ & _ & _ & _ & Hs & _).
    rewrite Hs. split.
    + apply update_stabilizers_rest; [|assumption].
      unfold zero_pose. cbn [firstn skipn app].
      repeat (constructor; [reflexivity|]). constructor.
    + rewrite update_stabilizers_length. assumption.
Qed.

Lemma kalman_window_length (inputs : list (list R)) :
  length (kalman_coord_vector (kalman_ticks TrackerProcessing_init inputs)) =
  Nat.min (length inputs) 19.
Proof.
  induction inputs as [|c inputs IH] using rev_ind.
  - reflexivity.
  - rewrite kalman_ticks_snoc, length_snoc.
    destruct (kalman_filter_state
                (kalman_ticks TrackerProcessing_init inputs) c)
      as (_ & _ & _ & _ & _ & _ & Hk).
    rewrite Hk.
    destruct (Nat.ltb_spec
                (length (kalman_coord_vector
                           (kalman_ticks TrackerProcessing_init inputs) ++
                         [firstn 3 (filtered_pose
                            (kalman_ticks TrackerProcessing_init inputs) c)]))
                20) as [Hlt|Hge].
    + rewrite length_snoc in *. lia.
    + rewrite length_tl_snoc. rewrite length_snoc in Hge. lia.
Qed.

(** C4 (amended): for every sequence of per-tick calls to the Kalman
    filtering operation on a fresh instance, on each of the first 19 ticks
    the filter's output is suppressed and the raw input pose is returned
    unchanged; from tick 20 onward the filtered pose (the corrected values
    of the six stabilizers) is returned.  The tick of the call is the
    number of earlier calls plus one. *)
Theorem kalman_warm_up_ticks (inputs : list (list R)) (c : list R) :
  fst (kalman_filter (kalman_ticks TrackerProcessing_init inputs) c) =
  if (length inputs <? 19)%nat then c
  else filtered_pose (kalman_ticks TrackerProcessing_init inputs) c.
Proof.
  rewrite kalman_filter_value, kalman_window_length.
  destruct (Nat.ltb_spec (length inputs) 19) as [Hlt|Hge].
  - replace (Nat.min (length inputs) 19) with (length inputs) by lia.
    destruct (Nat.ltb_spec (S (length inputs)) 20); [reflexivity|lia].
  - replace (Nat.min (length inputs) 19) with 19%nat by lia. reflexivity.
Qed.

(** C4 as stated fails: after 19 ticks on the all-zero pose, tick 20 on the
    pose (1, 1, 1, 1, 1, 1) is not answered with the raw pose but with the
    filtered one, whose first component is the filter gain, below one. *)
Lemma kalman_tick_20_is_filtered :
  let warm_up := repeat [0; 0; 0; 0; 0; 0] 19 in
  let pose := [1; 1; 1; 1; 1; 1] in
  fst (kalman_filter (kalman_ticks TrackerProcessing_init warm_up) pose) <>
  pose.
Proof.
  intros warm_up pose.
  rewrite kalman_filter_value, kalman_window_length.
  replace (S (Nat.min (length warm_up) 19) <? 20)%nat with false
    by reflexivity.
  destruct (kalman_ticks_rest 19) as [Hrest Hlen].
  fold zero_pose in warm_up. fold warm_up in Hrest, Hlen.
  unfold filtered_pose.
  destruct (tracker_stabilizers (kalman_ticks TrackerProcessing_init warm_up))
    as [|k ks]; [discriminate Hlen|].
  inversion Hrest as [|? ? Hk _]; subst.
  unfold pose. cbn [firstn skipn app].
  rewrite update_stabilizers_cons. cbn [snd].
  destruct (update_from_rest k 1 Hk) as (K0 & K1 & HK & Hst & _).
  rewrite Hst. cbn [fst]. intros Heq. injection Heq as H0 _. lra.
Qed.

(** ** The motion gate *)

(** The value that a call of [compute_head_move_threshold] returns. *)
Lemma threshold_value (thr : R) (self : TrackerProcessing) (c : list R) (now : R) :
  fst (compute_head_move_threshold thr self c now) =
  if (10 <=? S (length (coord_vel self)))%nat then
    negb (np_gt
            (if (30 <=? S (length (velocity_vector self)))%nat then
               np_std (velocity_vector self ++
                       [fst (estimate_head_velocity (coord_vel self ++ [c])
                                                    (timestamp self ++ [now]))])
             else velocity_std self)
            thr)
  else false.
Proof.
  unfold compute_head_move_threshold. rewrite length_snoc.
  destruct (10 <=? S (length (coord_vel self)))%nat; [|reflexivity].
  destruct (estimate_head_velocity (coord_vel self ++ [c])
                                   (timestamp self ++ [now])) as [v d].
  cbn [fst snd]. rewrite length_snoc. reflexivity.
Qed.

Lemma observe_all_snoc (thr : R) (self : TrackerProcessing)
    (inputs : list (list R * R)) (c : list R) (now : R) :
  observe_all thr self (inputs ++ [(c, now)]) =
  snd (compute_head_move_threshold thr (observe_all thr self inputs) c now).
Proof. unfold observe_all. rewrite fold_left_app. reflexivity. Qed.

(** The windows of the gate after [n] calls on a fresh instance. *)
Lemma observe_all_state (thr : R) (inputs : list (list R * R)) :
  let self := observe_all thr TrackerProcessing_init inputs in
  length (coord_vel self) = Nat.min (length inputs) 9 /\
  length (velocity_vector self) = Nat.min (length inputs - 9) 29 /\
  ((length inputs <= 38)%nat -> velocity_std self = Fin 0).
Proof.
  induction inputs as [|[c now] inputs IH] using rev_ind.
  - cbn. auto.
  - cbv zeta in *. destruct IH as (IHc & IHv & IHs).
    rewrite observe_all_snoc, length_snoc.
    destruct (threshold_state thr
                (observe_all thr TrackerProcessing_init inputs) c now)
      as (_ & _ & _ & Hrest).
    cbv zeta in Hrest. rewrite !length_snoc in Hrest.
    rewrite IHc, IHv in Hrest.
    destruct (Nat.leb_spec 10 (S (Nat.min (length inputs) 9))) as [Hge|Hlt].
    + destruct Hrest as (Ec & _ & Hrest).
      rewrite Ec, length_tl_snoc, IHc.
      destruct (Nat.leb_spec 30 (S (Nat.min (length inputs - 9) 29)))
        as [Hge'|Hlt']; destruct Hrest as (Ev & Es); rewrite Ev.
      * rewrite length_tl_snoc, IHv. repeat split; try lia.
      * rewrite length_snoc, IHv, Es.
        repeat split; try lia. intros Hle. apply IHs. lia.
    + destruct Hrest as (Ec & _ & Ev & Es).
      rewrite Ec, Ev, Es, length_snoc, IHc, IHv.
      repeat split; try lia. intros Hle. apply IHs. lia.
Qed.

Lemma np_gt_zero (thr : R) : negb (np_gt (Fin 0) thr) = true <-> 0 <= thr.
Proof.
  unfold np_gt. destruct (Rlt_dec thr 0) as [Hlt|Hge]; cbn [negb].
  - split; [discriminate|lra].
  - split; [lra|reflexivity].
Qed.

(** C5 (amended): for every sequence of calls to the motion-gate observe
    operation on a fresh instance, each of the first 9 calls (fewer than 10
    head poses observed) returns false; from the 10th call on, as long as
    fewer than 30 velocity samples have been observed (calls 10 to 38), the
    running standard deviation still holds its initial value 0 and the gate
    returns true exactly when the head-velocity threshold is not negative. *)
Theorem gate_before_first_deviation
    (thr : R) (inputs : list (list R * R)) (c : list R) (now : R) :
  let self := observe_all thr TrackerProcessing_init inputs in
  let answer := compute_head_move_threshold thr self c now in
  ((length inputs < 9)%nat -> fst answer = false) /\
  ((9 <= length inputs < 38)%nat ->
   (length (velocity_vector (snd answer)) < 30)%nat /\
   velocity_std (snd answer) = Fin 0 /\
   (fst answer = true <-> 0 <= thr)).
Proof.
  cbv zeta.
  pose proof (observe_all_state thr inputs) as (Hc & Hv & Hs).
  pose proof (observe_all_state thr (inputs ++ [(c, now)])) as (_ & Hv' & Hs').
  cbv zeta in *. rewrite observe_all_snoc, length_snoc in *.
  rewrite threshold_value, Hc, Hv.
  split.
  - intros Hlt.
    destruct (Nat.leb_spec 10 (S (Nat.min (length inputs) 9))); [lia|].
    reflexivity.
  - intros [Hlo Hhi].
    split; [rewrite Hv'; lia|]. split; [apply Hs'; lia|].
    destruct (Nat.leb_spec 10 (S (Nat.min (length inputs) 9))); [|lia].
    destruct (Nat.leb_spec 30 (S (Nat.min (length inputs - 9) 29))); [lia|].
    rewrite Hs by lia. apply np_gt_zero.
Qed.

Lemma gate_before_first_deviation_witness :
  fst (compute_head_move_threshold 10
         (observe_all 10 TrackerProcessing_init nine_still_poses)
         zero_pose 9) = true <-> 0 <= 10.
Proof.
  apply (gate_before_first_deviation 10 nine_still_poses zero_pose 9).
  cbn [nine_still_poses length]. lia.
Defined.

(** C5 as stated fails: with the threshold 10, the 10th call on a head that
    does not move returns true although a single velocity sample, far fewer
    than 30, has been observed. *)
Lemma gate_opens_at_tenth_pose :
  let answer :=
    compute_head_move_threshold 10
      (observe_all 10 TrackerProcessing_init nine_still_poses) zero_pose 9 in
  length (velocity_vector (snd answer)) = 1%nat /\ fst answer = true.
Proof.
  cbv zeta.
  pose proof (observe_all_state 10 (nine_still_poses ++ [(zero_pose, 9)]))
    as (_ & Hv & _).
  cbv zeta in Hv. rewrite observe_all_snoc in Hv.
  split; [exact Hv|].
  pose proof (observe_all_state 10 nine_still_poses) as (Hc & Hv0 & Hs).
  cbv zeta in Hc, Hv0, Hs.
  rewrite threshold_value, Hc, Hv0, Hs by (cbn [nine_still_poses length]; lia).
  cbn [nine_still_poses length Nat.min Nat.sub Nat.leb].
  apply np_gt_zero. lra.
Qed.

(** * Further properties *)

(** ** Positions and angles of the pose/matrix transform *)

(** X1: the position put into a matrix is read back exactly, whatever the
    orientation and whichever conventions are used to build and to decode
    the matrix. *)
Theorem position_roundtrip (p o : list R) (c c' : tr.axes) :
  length p = 3%nat ->
  fst (transformation_matrix_to_coordinates
         (coordinates_to_transformation_matrix p o c) c') = p.
Proof.
  intros Hp. list3 p Hp.
  unfold transformation_matrix_to_coordinates.
  destruct (tr.euler_from_matrix _ c') as [[ax ay] az]. cbn [fst].
  destruct c; [rewrite to_matrix_static|rewrite to_matrix_rotating];
    reflexivity.
Qed.

Lemma position_roundtrip_witness :
  fst (transformation_matrix_to_coordinates
         (coordinates_to_transformation_matrix [1; 2; 3] [400; 90; -7] tr.rzyx)
         tr.sxyz) = [1; 2; 3].
Proof.
  apply (position_roundtrip [1; 2; 3] [400; 90; -7] tr.rzyx tr.sxyz).
  reflexivity.
Defined.

Lemma atan_sign_nonpos (x : R) : x <= 0 -> atan x <= 0.
Proof.
  intros [Hlt|Heq].
  - pose proof (atan_increasing x 0 Hlt) as H. rewrite atan_0 in H. lra.
  - rewrite Heq, atan_0. lra.
Qed.

Lemma atan_sign_pos (x : R) : 0 < x -> 0 < atan x.
Proof.
  intros Hlt. pose proof (atan_increasing 0 x Hlt) as H.
  rewrite atan_0 in H. exact H.
Qed.

(** [atan2] answers in the half-open full turn. *)
Lemma atan2_range (y x : R) : - PI < tr.atan2 y x <= PI.
Proof.
  pose proof PI_pos as Hpi. unfold tr.atan2.
  destruct (Rlt_dec 0 x) as [Hx|Hx].
  - pose proof (atan_bound (y / x)). lra.
  - destruct (Rlt_dec x 0) as [Hx'|Hx'].
    + assert (Hinv : / x < 0) by (apply Rinv_lt_0_compat; assumption).
      pose proof (atan_bound (y / x)) as Hb.
      destruct (Rle_dec 0 y) as [Hy|Hy].
      * assert (y / x <= 0).
        { unfold Rdiv. apply Ropp_le_cancel. rewrite Ropp_0.
          replace (- (y * / x)) with (y * - / x) by ring.
          apply Rmult_le_pos; lra. }
        pose proof (atan_sign_nonpos (y / x)). lra.
      * assert (0 < y / x).
        { unfold Rdiv. replace (y * / x) with ((- y) * (- / x)) by ring.
          apply Rmult_lt_0_compat; lra. }
        pose proof (atan_sign_pos (y / x)). lra.
    + destruct (Rlt_dec 0 y); [lra|]. destruct (Rlt_dec y 0); lra.
Qed.

(** With a non-negative second argument, [atan2] answers in the closed
    right half-turn. *)
Lemma atan2_half_range (y x : R) :
  0 <= x -> - (PI / 2) <= tr.atan2 y x <= PI / 2.
Proof.
  intros Hx. pose proof PI_pos as Hpi. unfold tr.atan2.
  destruct (Rlt_dec 0 x) as [Hx0|Hx0].
  - pose proof (atan_bound (y / x)). lra.
  - destruct (Rlt_dec x 0); [lra|].
    destruct (Rlt_dec 0 y); [lra|]. destruct (Rlt_dec y 0); lra.
Qed.

Lemma degrees_monotone (x y : R) : x <= y -> degrees x <= degrees y.
Proof.
  intros Hxy. unfold degrees. pose proof PI_pos as Hpi.
  apply Rmult_le_compat_r; [|assumption].
  apply Rlt_le, Rdiv_lt_0_compat; lra.
Qed.

Lemma degrees_PI : degrees PI = 180.
Proof. unfold degrees. pose proof PI_pos. field. lra. Qed.

Lemma degrees_opp (x : R) : degrees (- x) = - degrees x.
Proof. unfold degrees. ring. Qed.

Lemma degrees_half_PI : degrees (PI / 2) = 90.
Proof. unfold degrees. pose proof PI_pos. field. lra. Qed.

(** X2: whatever the matrix and the convention, the decoder answers three
    angles between -180 and 180 degrees, and the middle one lies between
    -90 and 90 degrees. *)
Theorem decoded_angles_in_range (M : matrix) (c : tr.axes) :
  exists a b g,
    snd (transformation_matrix_to_coordinates M c) = [a; b; g] /\
    -180 <= a <= 180 /\ -90 <= b <= 90 /\ -180 <= g <= 180.
Proof.
  unfold transformation_matrix_to_coordinates, tr.euler_from_matrix.
  set (cy := sqrt (mget M 0 0 * mget M 0 0 + mget M 1 0 * mget M 1 0)).
  assert (Hcy : 0 <= cy) by apply sqrt_pos.
  assert (Hfull : forall y x, -180 <= degrees (tr.atan2 y x) <= 180).
  { intros y x. pose proof (atan2_range y x) as [Hlo Hhi].
    split.
    - replace (-180) with (degrees (- PI))
        by (rewrite degrees_opp, degrees_PI; lra).
      apply degrees_monotone. lra.
    - rewrite <- degrees_PI. apply degrees_monotone. assumption. }
  assert (Hhalf : -90 <= degrees (tr.atan2 (- mget M 2 0) cy) <= 90).
  { pose proof (atan2_half_range (- mget M 2 0) cy Hcy) as [Hlo Hhi].
    split.
    - replace (-90) with (degrees (- (PI / 2)))
        by (rewrite degrees_opp, degrees_half_PI; lra).
      apply degrees_monotone. assumption.
    - rewrite <- degrees_half_PI. apply degrees_monotone. assumption. }
  assert (Hzero : -180 <= degrees 0 <= 180).
  { unfold degrees. rewrite Rmult_0_l. lra. }
  destruct (Rlt_dec tr._EPS cy); destruct c; cbn [tr.frame snd];
    eexists _, _, _; (split; [reflexivity|]); auto.
Qed.

Lemma radians_90 : radians 90 = PI / 2.
Proof. unfold radians. field. Qed.

Lemma radians_minus (x y : R) : radians (x - y) = radians x - radians y.
Proof. unfold radians. ring. Qed.

(** The decoder on a matrix whose middle angle is a quarter turn: the
    gimbal-lock branch. *)
Lemma euler_from_pose_matrix_gimbal (ai ak : R) (p : list R) (c : tr.axes) :
  - PI < ai - ak <= PI ->
  tr.euler_from_matrix (pose_matrix ai (PI / 2) ak p) c =
  if tr.frame c then (0, PI / 2, ai - ak) else (ai - ak, PI / 2, 0).
Proof.
  intros Hrange. pose proof PI_pos as Hpi.
  pose proof EPS_bounds as [He0 He1].
  unfold tr.euler_from_matrix, pose_matrix, mget. cbn [nth].
  rewrite cos_PI2, sin_PI2.
  replace (0 * cos ak * (0 * cos ak) + 0 * sin ak * (0 * sin ak)) with 0
    by ring.
  rewrite sqrt_0.
  destruct (Rlt_dec tr._EPS 0) as [Hlt|_]; [lra|].
  replace (- (1 * (cos ai * sin ak) - sin ai * cos ak))
    with (1 * sin (ai - ak)) by (rewrite sin_minus; ring).
  replace (1 * (sin ai * sin ak) + cos ai * cos ak)
    with (1 * cos (ai - ak)) by (rewrite cos_minus; ring).
  rewrite (atan2_polar 1 (ai - ak)) by (lra || assumption).
  replace (tr.atan2 (- - (1)) 0) with (PI / 2).
  - reflexivity.
  - unfold tr.atan2. rewrite Ropp_involutive.
    destruct (Rlt_dec 0 0) as [H|_]; [lra|].
    destruct (Rlt_dec 0 1) as [_|H]; [reflexivity|lra].
Qed.

(** X3: at gimbal lock, with the middle angle at exactly 90 degrees, the
    decoder does not give the two other angles back: it answers their
    difference in one of them and zero in the other.  Under the static
    convention (a, 90, g) decodes to (a - g, 90, 0), under the rotating one
    to (0, 90, g - a). *)
Theorem gimbal_lock_resolution (p : list R) (a g : R) :
  length p = 3%nat -> -180 < a - g < 180 ->
  transformation_matrix_to_coordinates
    (coordinates_to_transformation_matrix p [a; 90; g] tr.sxyz) tr.sxyz =
    (p, [a - g; 90; 0]) /\
  transformation_matrix_to_coordinates
    (coordinates_to_transformation_matrix p [a; 90; g] tr.rzyx) tr.rzyx =
    (p, [0; 90; g - a]).
Proof.
  intros Hp Hrange. list3 p Hp.
  assert (Hzero : degrees 0 = 0) by (unfold degrees; ring).
  unfold transformation_matrix_to_coordinates. split.
  - rewrite to_matrix_static. cbn [nth]. rewrite radians_90.
    rewrite euler_from_pose_matrix_gimbal
      by (rewrite <- radians_minus; apply radians_range; lra).
    cbn [tr.frame]. rewrite <- radians_minus, degrees_radians.
    rewrite <- radians_90, degrees_radians, Hzero. reflexivity.
  - rewrite to_matrix_rotating. cbn [nth]. rewrite radians_90.
    rewrite euler_from_pose_matrix_gimbal
      by (rewrite <- radians_minus; apply radians_range; lra).
    cbn [tr.frame]. rewrite <- radians_minus, degrees_radians.
    rewrite <- radians_90, degrees_radians, Hzero. reflexivity.
Qed.

Lemma gimbal_lock_resolution_witness :
  transformation_matrix_to_coordinates
    (coordinates_to_transformation_matrix [1; 2; 3] [30; 90; 10] tr.sxyz)
    tr.sxyz = ([1; 2; 3], [30 - 10; 90; 0]) /\
  transformation_matrix_to_coordinates
    (coordinates_to_transformation_matrix [1; 2; 3] [30; 90; 10] tr.rzyx)
    tr.rzyx = ([1; 2; 3], [0; 90; 10 - 30]).
Proof.
  apply (gimbal_lock_resolution [1; 2; 3] 30 10); [reflexivity|lra].
Defined.

Lemma radians_turns (x : R) (k : nat) :
  radians (x + 360 * INR k) = radians x + 2 * INR k * PI.
Proof. unfold radians. field. Qed.

(** X4: adding whole turns to the angles of an orientation does not change
    the matrix, under either convention; so the decoder cannot give the
    turns back. *)
Theorem whole_turns_same_matrix
    (p : list R) (a b g : R) (ka kb kg : nat) (c : tr.axes) :
  coordinates_to_transformation_matrix
    p [a + 360 * INR ka; b + 360 * INR kb; g + 360 * INR kg] c =
  coordinates_to_transformation_matrix p [a; b; g] c.
Proof.
  destruct c; [rewrite !to_matrix_static|rewrite !to_matrix_rotating];
    cbn [nth]; unfold pose_matrix; rewrite !radians_turns;
    rewrite !sin_period, !cos_period; reflexivity.
Qed.

(** ** Identity calibration and identity offset *)

Lemma pose_matrix_matmul_identity (ai aj ak : R) (p : list R) :
  matmul (pose_matrix ai aj ak p) (identity 4) = pose_matrix ai aj ak p.
Proof.
  unfold matmul, identity, pose_matrix, dot, column, Rsum. cbn.
  matrix_entries.
Qed.

(** X5: with the identity as tracker-to-robot matrix, the frame conversion
    returns a sample of three poses unchanged, provided their angles are in
    the range the decoder answers in. *)
Theorem identity_calibration_passes_through (probe ref obj : list R) :
  principal_pose probe -> principal_pose ref -> principal_pose obj ->
  transform_tracker_to_robot (Some (identity 4)) [probe; ref; obj] =
  Returned [probe; ref; obj].
Proof.
  assert (Hone : forall pose, principal_pose pose ->
            convert_marker_spec tr.rzyx (identity 4) pose = pose).
  { intros pose (Hlen & Ha & Hb & Hg & Heps). list6 pose Hlen.
    cbn [nth] in *. unfold convert_marker_spec. cbn [firstn skipn].
    rewrite to_matrix_rotating. cbn [nth].
    rewrite matmul_identity_pose_matrix.
    rewrite decode_pose_matrix by (reflexivity || assumption).
    reflexivity. }
  intros Hp Hr Ho. unfold transform_tracker_to_robot. cbn [nth].
  rewrite !transformation_tracker_to_robot_set. cbn [Py.bind].
  rewrite !Hone by assumption. reflexivity.
Qed.

Lemma principal_pose_example : principal_pose [10; 0; 0; 30; 0; -45].
Proof.
  unfold principal_pose. cbn [nth length].
  rewrite cos_radians_0. pose proof EPS_bounds.
  repeat split; try reflexivity; lra.
Qed.

Lemma identity_calibration_passes_through_witness :
  transform_tracker_to_robot (Some (identity 4))
    [[10; 0; 0; 30; 0; -45]; [10; 0; 0; 30; 0; -45]; [10; 0; 0; 30; 0; -45]] =
  Returned
    [[10; 0; 0; 30; 0; -45]; [10; 0; 0; 30; 0; -45]; [10; 0; 0; 30; 0; -45]].
Proof.
  apply (identity_calibration_passes_through
           [10; 0; 0; 30; 0; -45] [10; 0; 0; 30; 0; -45] [10; 0; 0; 30; 0; -45]);
    apply principal_pose_example.
Defined.

(** X6: with the identity as robot-to-head offset, the compensation does
    not return the head pose: the head matrix is built under the rotating
    convention and decoded under the static one, so the position comes back
    and the three angles come back in reverse order. *)
Theorem identity_offset_reverses_angles (head : list R) :
  principal_pose head ->
  compute_head_move_compensation head (identity 4) =
  [nth 0 head 0; nth 1 head 0; nth 2 head 0;
   nth 5 head 0; nth 4 head 0; nth 3 head 0].
Proof.
  intros (Hlen & Ha & Hb & Hg & Heps). list6 head Hlen. cbn [nth] in *.
  unfold compute_head_move_compensation. cbn [firstn skipn].
  rewrite to_matrix_rotating. cbn [nth].
  rewrite pose_matrix_matmul_identity.
  rewrite decode_pose_matrix by (reflexivity || assumption).
  reflexivity.
Qed.

Lemma identity_offset_reverses_angles_witness :
  compute_head_move_compensation [10; 0; 0; 30; 0; -45] (identity 4) =
  [10; 0; 0; -45; 0; 30].
Proof.
  apply (identity_offset_reverses_angles [10; 0; 0; 30; 0; -45]).
  apply principal_pose_example.
Defined.

(** ** The head-center estimator with fiducials *)

(** X7: with three fiducials registered, the head-center estimation returns
    exactly when the left-ear and the right-ear matrices are set; the
    nasion matrix is never looked at and may be unset. *)
Theorem head_center_needs_both_ears
    (self : TrackerProcessing) (h : list R) (left right nasion : option matrix) :
  matrix_tracker_fiducials self = [left; right; nasion] ->
  (Py.returns (estimate_head_center self h) <->
   left <> None /\ right <> None).
Proof.
  intros Hf. unfold estimate_head_center, Py.returns. rewrite Hf.
  destruct left as [L|]; destruct right as [R|]; cbn [py_matmul Py.bind].
  - split; [intros _; split; discriminate|intros _; eexists; reflexivity].
  - split; [intros [a Ha]; discriminate Ha|intros [_ Hr]; contradiction].
  - split; [intros [a Ha]; discriminate Ha|intros [Hl _]; contradiction].
  - split; [intros [a Ha]; discriminate Ha|intros [Hl _]; contradiction].
Qed.

Lemma head_center_needs_both_ears_witness :
  Py.returns
    (estimate_head_center
       (SetMatrixTrackerFiducials TrackerProcessing_init
          [Some (identity 4); Some (identity 4); None])
       zero_pose) <->
  Some (identity 4) <> None /\ Some (identity 4) <> None.
Proof.
  apply (head_center_needs_both_ears
           (SetMatrixTrackerFiducials TrackerProcessing_init
              [Some (identity 4); Some (identity 4); None])
           zero_pose (Some (identity 4)) (Some (identity 4)) None).
  reflexivity.
Defined.

(** X8: when the number of registered fiducials is not three, the
    head-center estimation fails at the unpacking of the fiducials, before
    any matrix is computed. *)
Theorem head_center_wrong_fiducial_count
    (self : TrackerProcessing) (h : list R) :
  length (matrix_tracker_fiducials self) <> 3%nat ->
  estimate_head_center self h = Raised UnpackError.
Proof.
  intros Hlen. unfold estimate_head_center.
  destruct (matrix_tracker_fiducials self) as [|l [|r [|n [|x rest]]]];
    try reflexivity.
  exfalso. apply Hlen. reflexivity.
Qed.

Lemma head_center_wrong_fiducial_count_witness :
  estimate_head_center
    (SetMatrixTrackerFiducials TrackerProcessing_init
       [Some (identity 4); Some (identity 4)])
    zero_pose = Raised UnpackError.
Proof.
  apply (head_center_wrong_fiducial_count
           (SetMatrixTrackerFiducials TrackerProcessing_init
              [Some (identity 4); Some (identity 4)])
           zero_pose).
  cbn. lia.
Defined.

(** X9: with homogeneous left-ear and right-ear matrices, the estimated
    head center is the image, under the matrix of the current head pose
    (rotating convention), of the midpoint of the two fiducial
    translations. *)
Theorem head_center_is_transformed_midpoint
    (self : TrackerProcessing) (h : list R) (L R : matrix)
    (nasion : option matrix) :
  matrix_tracker_fiducials self = [Some L; Some R; nasion] ->
  homogeneous L -> homogeneous R ->
  estimate_head_center self h =
  Returned
    (transform_point
       (coordinates_to_transformation_matrix
          (firstn 3 h) (skipn 3 h) tr.rzyx)
       (midpoint (tr.translation_from_matrix L)
                 (tr.translation_from_matrix R))).
Proof.
  intros Hf HL HR. unfold estimate_head_center. rewrite Hf.
  cbn [py_matmul Py.bind]. f_equal.
  unfold compute_marker_transformation. cbn [nth].
  rewrite to_matrix_rotating.
  rows4 L HL. rows4 R HR. unfold mget in *. cbn [nth] in *. subst.
  unfold transform_point, midpoint, tr.translation_from_matrix, mget,
    pose_matrix, last_column3, matmul, column, dot, Rsum.
  cbn [nth firstn map combine fst snd hd length seq last fold_right app].
  repeat (f_equal; try field).
Qed.

Lemma homogeneous_identity : homogeneous (identity 4).
Proof.
  unfold homogeneous, identity, mget. cbn.
  repeat split; try reflexivity. repeat constructor.
Qed.

Lemma head_center_is_transformed_midpoint_witness :
  estimate_head_center
    (SetMatrixTrackerFiducials TrackerProcessing_init
       [Some (identity 4); Some (identity 4); None])
    zero_pose =
  Returned
    (transform_point
       (coordinates_to_transformation_matrix
          (firstn 3 zero_pose) (skipn 3 zero_pose) tr.rzyx)
       (midpoint (tr.translation_from_matrix (identity 4))
                 (tr.translation_from_matrix (identity 4)))).
Proof.
  apply (head_center_is_transformed_midpoint
           (SetMatrixTrackerFiducials TrackerProcessing_init
              [Some (identity 4); Some (identity 4); None])
           zero_pose (identity 4) (identity 4) None).
  - reflexivity.
  - apply homogeneous_identity.
  - apply homogeneous_identity.
Defined.

(** ** The distance helpers *)

Lemma sum_of_squares3_zero (x y z : R) :
  x ^ 2 + y ^ 2 + z ^ 2 = 0 -> x = 0 /\ y = 0 /\ z = 0.
Proof.
  intros H. pose proof (pow2_ge_0 x). pose proof (pow2_ge_0 y).
  pose proof (pow2_ge_0 z).
  assert (Hx : x ^ 2 = 0) by lra. assert (Hy : y ^ 2 = 0) by lra.
  assert (Hz : z ^ 2 = 0) by lra.
  cbn [pow] in Hx, Hy, Hz. rewrite Rmult_1_r in Hx, Hy, Hz.
  apply Rmult_integral in Hx, Hy, Hz. tauto.
Qed.

(** X10: the correction distance is the Euclidean distance of the first
    three components: it does not depend on the order of its arguments, it
    is zero exactly when the two positions coincide (whatever the
    orientations), and the length of a robot target is its distance to the
    origin. *)
Theorem correction_distance_is_a_distance (u v : list R) :
  correction_distance_calculation_target u v =
    correction_distance_calculation_target v u /\
  (correction_distance_calculation_target u v = 0 <->
   nth 0 u 0 = nth 0 v 0 /\ nth 1 u 0 = nth 1 v 0 /\ nth 2 u 0 = nth 2 v 0) /\
  estimate_robot_target_length u =
    correction_distance_calculation_target u [0; 0; 0].
Proof.
  unfold correction_distance_calculation_target, estimate_robot_target_length.
  cbn [nth].
  set (x := nth 0 u 0 - nth 0 v 0). set (y := nth 1 u 0 - nth 1 v 0).
  set (z := nth 2 u 0 - nth 2 v 0).
  assert (Hnn : 0 <= x ^ 2 + y ^ 2 + z ^ 2).
  { pose proof (pow2_ge_0 x). pose proof (pow2_ge_0 y).
    pose proof (pow2_ge_0 z). lra. }
  split; [|split].
  - f_equal. unfold x, y, z. ring.
  - split.
    + intros Hz. apply sqrt_eq_0 in Hz; [|assumption].
      apply sum_of_squares3_zero in Hz. unfold x, y, z in Hz. lra.
    + intros (H0 & H1 & H2).
      replace (x ^ 2 + y ^ 2 + z ^ 2) with 0
        by (unfold x, y, z; rewrite H0, H1, H2; ring).
      apply sqrt_0.
  - f_equal. ring.
Qed.

(** ** The end points of the arc *)

Lemma sqrt_scaled_sum (k d0 d1 d2 : R) :
  0 <= k ->
  sqrt ((k * d0) ^ 2 + (k * d1) ^ 2 + (k * d2) ^ 2) =
  k * sqrt (d0 ^ 2 + d1 ^ 2 + d2 ^ 2).
Proof.
  intros Hk.
  replace ((k * d0) ^ 2 + (k * d1) ^ 2 + (k * d2) ^ 2)
    with (k * k * (d0 ^ 2 + d1 ^ 2 + d2 ^ 2)) by ring.
  rewrite sqrt_mult_alt by nra.
  rewrite sqrt_square by assumption. reflexivity.
Qed.

(** X11: for a positive scale factor and a new pose whose position is not
    the head center, the final arc point keeps the orientation of the new
    pose, ends with a zero, and lies on the ray from the head center
    through the new position, exactly the scale factor farther out. *)
Theorem final_arc_point_is_scale_farther
    (s : R) (current head_center new : list R) :
  0 < s -> length new = 6%nat -> length head_center = 3%nat ->
  firstn 3 new <> head_center ->
  exists x y z,
    skipn 3 (snd (compute_arc_motion s current head_center new)) =
      [Fin x; Fin y; Fin z;
       Fin (nth 3 new 0); Fin (nth 4 new 0); Fin (nth 5 new 0); Fin 0] /\
    distance3 [x; y; z] head_center = distance3 new head_center + s.
Proof.
  intros Hs Hn Hh Hpos. list6 new Hn. list3 head_center Hh.
  cbn [firstn] in Hpos.
  unfold compute_arc_motion. cbn [snd nth app skipn].
  match goal with
  | |- context [nth 0 (compute_versors s ?a ?b) NaN] =>
      set (hc6 := a); set (new6 := b)
  end.
  assert (Hne : new6 <> hc6).
  { intros Heq. apply Hpos. unfold new6, hc6 in Heq.
    injection Heq as H0 H1 H2. rewrite H0, H1, H2. reflexivity. }
  rewrite (compute_versors_formula s hc6 new6 eq_refl Hne).
  pose proof (euclidean_norm_pos hc6 new6 eq_refl Hne) as HN.
  set (N := euclidean_norm (vec_sub new6 hc6)) in *.
  assert (HND : N = distance3 new6 [r5; r6; r7]).
  { unfold N, euclidean_norm, distance3, vec_sub, new6, hc6, Rsum.
    cbn [combine map fst snd nth fold_right]. f_equal. ring. }
  unfold vec_sub, new6, hc6.
  cbn [combine map fst snd nth np_add].
  eexists _, _, _. split; [reflexivity|].
  fold new6. rewrite <- HND.
  unfold distance3. cbn [nth].
  replace ((r + (r - r5) / N * s - r5) ^ 2 + (r0 + (r0 - r6) / N * s - r6) ^ 2 +
           (r1 + (r1 - r7) / N * s - r7) ^ 2)
    with (((1 + s / N) * (r - r5)) ^ 2 + ((1 + s / N) * (r0 - r6)) ^ 2 +
          ((1 + s / N) * (r1 - r7)) ^ 2) by (field; lra).
  assert (Hk : 0 < s / N) by (apply Rdiv_lt_0_compat; assumption).
  rewrite sqrt_scaled_sum by lra.
  change (sqrt ((r - r5) ^ 2 + (r0 - r6) ^ 2 + (r1 - r7) ^ 2))
    with (distance3 new6 [r5; r6; r7]).
  rewrite <- HND. field. lra.
Qed.

Lemma final_arc_point_is_scale_farther_witness :
  exists x y z,
    skipn 3 (snd (compute_arc_motion 70 zero_pose [0; 0; 0]
                    [3; 4; 0; 10; 20; 30])) =
      [Fin x; Fin y; Fin z; Fin 10; Fin 20; Fin 30; Fin 0] /\
    distance3 [x; y; z] [0; 0; 0] =
    distance3 [3; 4; 0; 10; 20; 30] [0; 0; 0] + 70.
Proof.
  apply (final_arc_point_is_scale_farther
           70 zero_pose [0; 0; 0] [3; 4; 0; 10; 20; 30]);
    try reflexivity; try lra.
  cbn [firstn]. intros H. injection H as H0. lra.
Defined.

(** X12: for a positive scale factor and a current pose whose position is
    not the head center, the move-out point keeps the orientation of the
    current pose and lies strictly farther from the head center than the
    current position, by at most the scale factor. *)
Theorem move_out_point_backs_away
    (s : R) (current head_center new : list R) :
  0 < s -> length current = 6%nat -> length new = 6%nat ->
  length head_center = 3%nat -> firstn 3 current <> head_center ->
  exists x y z,
    fst (compute_arc_motion s current head_center new) =
      [Fin x; Fin y; Fin z;
       Fin (nth 3 current 0); Fin (nth 4 current 0); Fin (nth 5 current 0)] /\
    distance3 current head_center < distance3 [x; y; z] head_center /\
    distance3 [x; y; z] head_center <= distance3 current head_center + s.
Proof.
  intros Hs Hc Hn Hh Hpos.
  list6 current Hc. list6 new Hn. list3 head_center Hh.
  cbn [firstn] in Hpos.
  unfold compute_arc_motion. cbn [fst nth].
  match goal with
  | |- context [nth 0 (compute_versors s ?a ?b) NaN] =>
      set (hc6 := a); set (cur6 := b)
  end.
  assert (Hne : cur6 <> hc6).
  { intros Heq. apply Hpos. unfold cur6, hc6 in Heq.
    injection Heq as H0 H1 H2 _ _ _. rewrite H0, H1, H2. reflexivity. }
  rewrite (compute_versors_formula s hc6 cur6 eq_refl Hne).
  pose proof (euclidean_norm_pos hc6 cur6 eq_refl Hne) as HN.
  set (N := euclidean_norm (vec_sub cur6 hc6)) in *.
  set (D := distance3 cur6 [r11; r12; r13]).
  assert (HD : 0 < D).
  { unfold D, distance3, cur6. cbn [nth]. apply sqrt_lt_R0.
    pose proof (pow2_ge_0 (r - r11)) as H0.
    pose proof (pow2_ge_0 (r0 - r12)) as H1.
    pose proof (pow2_ge_0 (r1 - r13)) as H2.
    destruct (Req_dec ((r - r11) ^ 2 + (r0 - r12) ^ 2 + (r1 - r13) ^ 2) 0)
      as [Hz|Hnz]; [exfalso|lra].
    apply sum_of_squares3_zero in Hz. apply Hpos.
    f_equal; [lra|]. f_equal; [lra|]. f_equal; lra. }
  assert (HDN : D <= N).
  { unfold D, N, distance3, euclidean_norm, vec_sub, cur6, hc6, Rsum.
    cbn [combine map fst snd nth fold_right].
    apply sqrt_le_1_alt.
    pose proof (pow2_ge_0 (r2 - r8)). pose proof (pow2_ge_0 (r3 - r9)).
    pose proof (pow2_ge_0 (r4 - r10)). lra. }
  unfold vec_sub, cur6, hc6.
  cbn [combine map fst snd nth np_add].
  eexists _, _, _. split; [reflexivity|].
  fold cur6. fold D.
  unfold distance3. cbn [nth].
  replace ((r + (r - r11) / N * s - r11) ^ 2 +
           (r0 + (r0 - r12) / N * s - r12) ^ 2 +
           (r1 + (r1 - r13) / N * s - r13) ^ 2)
    with (((1 + s / N) * (r - r11)) ^ 2 + ((1 + s / N) * (r0 - r12)) ^ 2 +
          ((1 + s / N) * (r1 - r13)) ^ 2) by (field; lra).
  assert (Hk : 0 < s / N) by (apply Rdiv_lt_0_compat; assumption).
  rewrite sqrt_scaled_sum by lra.
  change (sqrt ((r - r11) ^ 2 + (r0 - r12) ^ 2 + (r1 - r13) ^ 2)) with D.
  assert (Hprod : 0 < s / N * D) by (apply Rmult_lt_0_compat; assumption).
  split; [lra|].
  assert (Hle : s / N * D <= s).
  { unfold Rdiv. rewrite Rmult_assoc.
    rewrite <- (Rmult_1_r s) at 2.
    apply Rmult_le_compat_l; [lra|].
    apply Rmult_le_reg_l with N; [assumption|].
    rewrite <- Rmult_assoc, Rinv_r by lra. lra. }
  lra.
Qed.

Lemma move_out_point_backs_away_witness :
  exists x y z,
    fst (compute_arc_motion 70 [3; 4; 0; 10; 20; 30] [0; 0; 0] zero_pose) =
      [Fin x; Fin y; Fin z; Fin 10; Fin 20; Fin 30] /\
    distance3 [3; 4; 0; 10; 20; 30] [0; 0; 0] < distance3 [x; y; z] [0; 0; 0] /\
    distance3 [x; y; z] [0; 0; 0] <=
      distance3 [3; 4; 0; 10; 20; 30] [0; 0; 0] + 70.
Proof.
  apply (move_out_point_backs_away
           70 [3; 4; 0; 10; 20; 30] [0; 0; 0] zero_pose);
    try reflexivity; try lra.
  cbn [firstn]. intros H. injection H as H0. lra.
Defined.

(** ** The stabilizers *)

Lemma feed_snoc (k : KalmanTracker) (zs : list R) (z : R) :
  feed k (zs ++ [z]) = update_kalman (feed k zs) [z].
Proof. unfold feed. rewrite fold_left_app. reflexivity. Qed.

Lemma feed_zeros_at_rest (k : KalmanTracker) (n : nat) :
  stabilizer_at_rest k -> stabilizer_at_rest (feed k (repeat 0 n)).
Proof.
  intros Hk. induction n as [|n IH]; [exact Hk|].
  replace (repeat 0 (S n)) with (repeat 0 n ++ [0])
    by (symmetry; apply repeat_cons).
  rewrite feed_snoc.
  destruct (update_from_rest _ 0 IH)
    as (K0 & K1 & _ & _ & Hx & HA & HH & HQ & HR & HP).
  destruct IH as (_ & _ & Hq & Hr & _ & _).
  unfold stabilizer_at_rest. rewrite HA, HH, HQ, HR, Hx.
  split; [reflexivity|]. split; [reflexivity|].
  split; [assumption|]. split; [assumption|].
  split; [f_equal; ring|assumption].
Qed.

(** The gain that a stabilizer at rest applies to its next measurement. *)
Lemma response_gain (k : KalmanTracker) :
  stabilizer_at_rest k ->
  exists K,
    0 < K < 1 /\ forall z, fst (state (update_kalman k [z])) = K * z.
Proof.
  intros (HA & HH & (q & Hq & HQ) & Hr & Hx & HP).
  destruct (cv2.errorCovPost (filter k)) as [[p00 p01] [p10 p11]] eqn:HE.
  unfold covariance_ok in HP. cbn [fst snd] in HP.
  destruct HP as (Hsym & H00 & H11 & Hdet & Hb). subst p10.
  destruct (prediction_keeps_covariance p00 p01 p11 q H00 H11 Hdet Hb Hq)
    as (Ha & Hc & Hb' & Hdet').
  set (r := cv2.measurementNoiseCov (filter k)) in *.
  destruct (correction_keeps_covariance _ _ _ r Ha Hc Hb' Hdet' Hr)
    as (_ & _ & _ & _ & _ & Cgain).
  set (a := p00 + 2 * p01 + p11 + q) in *.
  set (b := p01 + p11) in *.
  set (c := p11 + q) in *.
  assert (HS : 0 < a + b + (b + c) + r) by lra.
  set (S := a + b + (b + c) + r) in *.
  exists ((a + b) / S). split.
  - split; [apply Rdiv_lt_0_compat; lra|exact Cgain].
  - intros z. unfold update_kalman, cv2.predict, cv2.correct.
    cbn [state filter cv2.transitionMatrix cv2.measurementMatrix
         cv2.processNoiseCov cv2.measurementNoiseCov cv2.statePre
         cv2.statePost cv2.errorCovPre cv2.errorCovPost cv2.gain nth fst snd].
    rewrite HA, HH, HQ, Hx, HE. fold r.
    cbn [cv2.mat2_mul cv2.mat2_add cv2.mat2_transpose cv2.mat2_vec
         cv2.row_mat2 cv2.outer2 cv2.mat2_sub fst snd].
    unfold cv2.dot2. cbn [fst snd].
    unfold S, a, b, c in *. field. lra.
Qed.

(** X13: a stabilizer that has seen nothing but n zeros has a gain K with
    0 < K < 1, fixed by n alone, such that it answers whatever measurement
    z comes next with K * z: the filtered value moves towards the
    measurement without reaching it and without overshooting. *)
Theorem first_response_is_damped (n : nat) :
  exists K,
    0 < K < 1 /\
    forall z,
      fst (state (feed (KalmanTracker_init 2 (1 / 1000) (1 / 10))
                       (repeat 0 n ++ [z]))) = K * z.
Proof.
  destruct (response_gain
              (feed (KalmanTracker_init 2 (1 / 1000) (1 / 10)) (repeat 0 n)))
    as (K & HK & Hz).
  - apply feed_zeros_at_rest, stabilizer_init_at_rest.
  - exists K. split; [exact HK|].
    intros z. rewrite feed_snoc. apply Hz.
Qed.

(** One update keeps the gains equal and the states in linear relation. *)
Lemma update_linear (k1 k2 k3 : KalmanTracker) (c z1 z2 : R) :
  same_gain (filter k1) (filter k2) -> same_gain (filter k1) (filter k3) ->
  cv2.statePost (filter k3) =
    vec2_combine (cv2.statePost (filter k1)) c (cv2.statePost (filter k2)) ->
  let k1' := update_kalman k1 [z1] in
  let k2' := update_kalman k2 [z2] in
  let k3' := update_kalman k3 [z1 + c * z2] in
  same_gain (filter k1') (filter k2') /\ same_gain (filter k1') (filter k3') /\
  cv2.statePost (filter k3') =
    vec2_combine (cv2.statePost (filter k1')) c (cv2.statePost (filter k2')) /\
  state k3' = vec2_combine (state k1') c (state k2').
Proof.
  intros (A2 & H2 & Q2 & R2 & P2) (A3 & H3 & Q3 & R3 & P3) Hx.
  assert (Hpost :
    cv2.statePost (filter (update_kalman k3 [z1 + c * z2])) =
    vec2_combine (cv2.statePost (filter (update_kalman k1 [z1]))) c
                 (cv2.statePost (filter (update_kalman k2 [z2])))).
  { unfold update_kalman, cv2.predict, cv2.correct.
    cbn [filter cv2.transitionMatrix cv2.measurementMatrix
         cv2.processNoiseCov cv2.measurementNoiseCov cv2.statePre
         cv2.statePost cv2.errorCovPre cv2.errorCovPost cv2.gain nth fst snd].
    rewrite <- A2, <- A3, <- H2, <- H3, <- Q2, <- Q3, <- R2, <- R3,
      <- P2, <- P3, Hx.
    destruct (cv2.transitionMatrix (filter k1)) as [[a00 a01] [a10 a11]].
    destruct (cv2.measurementMatrix (filter k1)) as [h0 h1].
    destruct (cv2.processNoiseCov (filter k1)) as [[q00 q01] [q10 q11]].
    destruct (cv2.errorCovPost (filter k1)) as [[p00 p01] [p10 p11]].
    destruct (cv2.statePost (filter k1)) as [x0 x1].
    destruct (cv2.statePost (filter k2)) as [y0 y1].
    unfold vec2_combine, cv2.dot2.
    cbn [cv2.mat2_mul cv2.mat2_add cv2.mat2_transpose cv2.mat2_vec
         cv2.row_mat2 cv2.outer2 cv2.mat2_sub fst snd].
    unfold Rdiv. f_equal; ring. }
  cbv zeta. split; [|split; [|split]].
  - unfold same_gain, update_kalman, cv2.predict, cv2.correct.
    cbn [filter cv2.transitionMatrix cv2.measurementMatrix
         cv2.processNoiseCov cv2.measurementNoiseCov cv2.statePre
         cv2.statePost cv2.errorCovPre cv2.errorCovPost cv2.gain nth fst snd].
    rewrite <- A2, <- H2, <- Q2, <- R2, <- P2. repeat split; reflexivity.
  - unfold same_gain, update_kalman, cv2.predict, cv2.correct.
    cbn [filter cv2.transitionMatrix cv2.measurementMatrix
         cv2.processNoiseCov cv2.measurementNoiseCov cv2.statePre
         cv2.statePost cv2.errorCovPre cv2.errorCovPost cv2.gain nth fst snd].
    rewrite <- A3, <- H3, <- Q3, <- R3, <- P3. repeat split; reflexivity.
  - exact Hpost.
  - exact Hpost.
Qed.

Lemma same_gain_refl (f : cv2.KalmanFilter) : same_gain f f.
Proof. unfold same_gain. repeat split; reflexivity. Qed.

Lemma feed_linear (c : R) (zs : list (R * R)) (k1 k2 k3 : KalmanTracker) :
  same_gain (filter k1) (filter k2) -> same_gain (filter k1) (filter k3) ->
  cv2.statePost (filter k3) =
    vec2_combine (cv2.statePost (filter k1)) c (cv2.statePost (filter k2)) ->
  state k3 = vec2_combine (state k1) c (state k2) ->
  state (feed k3 (map (fun p => fst p + c * snd p) zs)) =
  vec2_combine (state (feed k1 (map fst zs))) c (state (feed k2 (map snd zs))).
Proof.
  revert k1 k2 k3. induction zs as [|[z1 z2] zs IH]; intros k1 k2 k3 G2 G3 Hx Hs.
  - exact Hs.
  - cbn [map fst snd]. unfold feed. cbn [fold_left].
    destruct (update_linear k1 k2 k3 c z1 z2 G2 G3 Hx) as (G2' & G3' & Hx' & Hs').
    apply IH; assumption.
Qed.

(** X14: the filter of a stabilizer is linear in its measurements: fed the
    sequence z1 + c * z2, a fresh stabilizer is in the state x1 + c * x2,
    where x1 and x2 are the states it reaches on z1 and on z2.  The gains
    do not depend on the data, whatever the two covariance parameters. *)
Theorem stabilizer_is_linear
    (state_num : nat) (covariance_process covariance_measure c : R)
    (zs : list (R * R)) :
  let fresh := KalmanTracker_init state_num covariance_process covariance_measure in
  state (feed fresh (map (fun p => fst p + c * snd p) zs)) =
  vec2_combine (state (feed fresh (map fst zs))) c
               (state (feed fresh (map snd zs))).
Proof.
  cbv zeta. apply feed_linear.
  - apply same_gain_refl.
  - apply same_gain_refl.
  - unfold vec2_combine. cbn. f_equal; ring.
  - unfold vec2_combine. cbn. f_equal; ring.
Qed.

(** ** The six stabilizers of an instance *)

Lemma update_stabilizers_six (c : list R) (ks : list KalmanTracker) :
  length c = 6%nat -> length ks = 6%nat ->
  update_stabilizers (firstn 3 c ++ skipn 3 c) ks =
  (map (fun i => update_kalman (nth i ks fresh_stabilizer) [nth i c 0])
       (seq 0 6),
   map (fun i => fst (state (update_kalman (nth i ks fresh_stabilizer)
                                           [nth i c 0])))
       (seq 0 6)).
Proof.
  intros Hc Hk. list6 c Hc. list6 ks Hk.
  cbn [firstn skipn app]. rewrite !update_stabilizers_cons.
  reflexivity.
Qed.

(** The stabilizers of an instance after a sequence of six-component
    poses: stabilizer [i] has been fed the history of component [i]. *)
Lemma stabilizers_follow_components (inputs : list (list R)) :
  Forall (fun pose => length pose = 6%nat) inputs ->
  tracker_stabilizers (kalman_ticks TrackerProcessing_init inputs) =
  map (fun i => feed fresh_stabilizer (component i inputs)) (seq 0 6).
Proof.
  induction inputs as [|c inputs IH] using rev_ind; intros Hall.
  - reflexivity.
  - apply Forall_app in Hall. destruct Hall as [Hin Hc].
    inversion Hc as [|? ? Hlen _]; subst.
    rewrite kalman_ticks_snoc.
    destruct (kalman_filter_state
                (kalman_ticks TrackerProcessing_init inputs) c)
      as (_ & _ & _ & _ & _ & Hs & _).
    rewrite Hs, (IH Hin).
    rewrite update_stabilizers_six by (assumption || reflexivity).
    cbn [fst map seq nth]. unfold component.
    rewrite !map_app. cbn [map]. rewrite !feed_snoc. reflexivity.
Qed.

(** X15: the six axes are filtered independently.  After the warm-up (19
    earlier calls or more) and on six-component poses, each component of
    the pose that [kalman_filter] returns is what one stabilizer, fed the
    history of that component alone, answers. *)
Theorem axes_are_filtered_independently
    (inputs : list (list R)) (c : list R) :
  Forall (fun pose => length pose = 6%nat) inputs -> length c = 6%nat ->
  (19 <= length inputs)%nat ->
  fst (kalman_filter (kalman_ticks TrackerProcessing_init inputs) c) =
  map (fun i => fst (state (feed fresh_stabilizer
                                 (component i (inputs ++ [c])))))
      (seq 0 6).
Proof.
  intros Hall Hc Hlen.
  rewrite kalman_filter_value, kalman_window_length.
  replace (Nat.min (length inputs) 19) with 19%nat by lia.
  cbn [Nat.ltb Nat.leb]. unfold filtered_pose.
  rewrite (stabilizers_follow_components inputs Hall).
  rewrite update_stabilizers_six by (assumption || reflexivity).
  cbn [snd map seq nth]. unfold component.
  rewrite !map_app. cbn [map]. rewrite !feed_snoc. reflexivity.
Qed.

Lemma axes_are_filtered_independently_witness :
  fst (kalman_filter
         (kalman_ticks TrackerProcessing_init (repeat zero_pose 19))
         [1; 2; 3; 4; 5; 6]) =
  map (fun i => fst (state (feed fresh_stabilizer
                 (component i (repeat zero_pose 19 ++ [[1; 2; 3; 4; 5; 6]])))))
      (seq 0 6).
Proof.
  apply (axes_are_filtered_independently
           (repeat zero_pose 19) [1; 2; 3; 4; 5; 6]).
  - apply Forall_forall. intros pose Hin.
    apply repeat_spec in Hin. rewrite Hin. reflexivity.
  - reflexivity.
  - cbn [repeat length]. lia.
Defined.

(** ** The filter and the gate side by side *)

(** X16: the Kalman filtering and the motion gate do not interfere: a call
    of one changes neither what the other returns next nor what it stores,
    and the two calls can be made in either order with the same final
    state. *)
Theorem filter_and_gate_are_independent
    (thr : R) (self : TrackerProcessing) (c ref : list R) (now : R) :
  fst (compute_head_move_threshold thr (snd (kalman_filter self c)) ref now) =
    fst (compute_head_move_threshold thr self ref now) /\
  fst (kalman_filter (snd (compute_head_move_threshold thr self ref now)) c) =
    fst (kalman_filter self c) /\
  snd (kalman_filter (snd (compute_head_move_threshold thr self ref now)) c) =
    snd (compute_head_move_threshold thr (snd (kalman_filter self c)) ref now).
Proof.
  unfold kalman_filter, compute_head_move_threshold.
  destruct (update_stabilizers (firstn 3 c ++ skipn 3 c)
                               (tracker_stabilizers self)) as [stabs ck] eqn:Hu.
  cbn [snd coord_vel timestamp velocity_vector velocity_std
       kalman_coord_vector m_tracker_to_robot matrix_tracker_fiducials
       tracker_stabilizers].
  destruct (10 <=? length (coord_vel self ++ [ref]))%nat.
  - destruct (estimate_head_velocity (coord_vel self ++ [ref])
                                     (timestamp self ++ [now])) as [v d].
    cbn [fst snd coord_vel timestamp velocity_vector velocity_std
         kalman_coord_vector m_tracker_to_robot matrix_tracker_fiducials
         tracker_stabilizers].
    rewrite Hu. cbn [fst snd]. repeat split; reflexivity.
  - cbn [fst snd coord_vel timestamp velocity_vector velocity_std
         kalman_coord_vector m_tracker_to_robot matrix_tracker_fiducials
         tracker_stabilizers].
    rewrite Hu. cbn [fst snd]. repeat split; reflexivity.
Qed.

(** ** The motion gate on a head at rest *)

Lemma Rsum_repeat (v : R) (k : nat) : Rsum (repeat v k) = INR k * v.
Proof.
  induction k as [|k IH].
  - cbn. ring.
  - rewrite S_INR. cbn [repeat Rsum fold_right].
    fold (Rsum (repeat v k)). rewrite IH. ring.
Qed.

Lemma finite_values_zeros (l : list npfloat) :
  Forall (fun e => e = Fin 0) l ->
  finite_values l = Some (repeat 0 (length l)).
Proof.
  induction l as [|e l IH]; intros Hall; [reflexivity|].
  inversion Hall as [|? ? He Hl]; subst.
  cbn [finite_values length repeat]. rewrite (IH Hl). reflexivity.
Qed.

(** The deviation of samples that are all zero is zero. *)
Lemma np_std_zeros (rows : list (list npfloat)) :
  Forall (fun row => row = zero_velocity) rows -> np_std rows = Fin 0.
Proof.
  intros Hall. unfold np_std.
  rewrite finite_values_zeros.
  - set (k := length (concat rows)). unfold mean.
    rewrite Rsum_repeat, repeat_length.
    replace (INR k * 0 / INR k) with 0 by (unfold Rdiv; ring).
    rewrite map_repeat, Rsum_repeat, repeat_length.
    replace (INR k * ((0 - 0) * (0 - 0)) / INR k) with 0
      by (unfold Rdiv; ring).
    rewrite sqrt_0. reflexivity.
  - apply Forall_concat. eapply Forall_impl; [|exact Hall].
    intros row ->. unfold zero_velocity. apply Forall_forall.
    intros e He. apply repeat_spec in He. exact He.
Qed.

(** The velocity sample over ten equal poses and a positive time span. *)
Lemma still_velocity (c : list R) (ts : list R) :
  length c = 6%nat -> last ts 0 <> hd 0 ts ->
  fst (estimate_head_velocity (repeat c 10) ts) = zero_velocity.
Proof.
  intros Hc Hdt. unfold estimate_head_velocity. cbn [fst].
  change (length (repeat c 10) / 2)%nat with 5%nat.
  cbn [repeat firstn skipn]. rewrite vec_sub_self.
  unfold mean_rows. rewrite length_map, length_seq. cbn [hd]. rewrite Hc.
  cbn [repeat map]. unfold zero_velocity, np_divide. cbn [repeat].
  destruct (Req_dec_T (last ts 0 - hd 0 ts) 0) as [Hz|_]; [lra|].
  replace (0 / (last ts 0 - hd 0 ts)) with 0 by (unfold Rdiv; ring).
  reflexivity.
Qed.

Lemma increasing_prefix (ts : list R) (t : R) :
  increasing (ts ++ [t]) -> increasing ts /\ Forall (fun u => u < t) ts.
Proof.
  intros Hinc. split.
  - intros i j Hij. specialize (Hinc i j).
    rewrite length_app in Hinc. cbn [length] in Hinc.
    rewrite !app_nth1 in Hinc by lia. apply Hinc. lia.
  - apply Forall_forall. intros u Hin.
    destruct (In_nth ts u 0 Hin) as (i & Hi & Hnth).
    specialize (Hinc i (length ts)).
    rewrite length_app in Hinc. cbn [length] in Hinc.
    rewrite app_nth1 in Hinc by lia. rewrite nth_middle in Hinc.
    rewrite <- Hnth. apply Hinc. lia.
Qed.

Lemma in_tl {A : Type} (x : A) (l : list A) : In x (tl l) -> In x l.
Proof. destruct l; cbn; auto. Qed.

(** The time span of a window that holds earlier clock values. *)
Lemma window_span (w : list R) (now : R) :
  w <> [] -> Forall (fun u => u < now) w ->
  last (w ++ [now]) 0 <> hd 0 (w ++ [now]).
Proof.
  intros Hne Hall. rewrite last_last.
  destruct w as [|u w]; [contradiction|].
  cbn [app hd]. inversion Hall; subst. lra.
Qed.

(** The gate's state while it watches a head at rest. *)
Lemma still_head_state (thr : R) (c : list R) (ts : list R) :
  length c = 6%nat -> increasing ts ->
  let self := observe_all thr TrackerProcessing_init (still_head c ts) in
  coord_vel self = repeat c (Nat.min (length ts) 9) /\
  length (timestamp self) = Nat.min (length ts) 9 /\
  incl (timestamp self) ts /\
  Forall (fun row => row = zero_velocity) (velocity_vector self) /\
  velocity_std self = Fin 0.
Proof.
  intros Hc. induction ts as [|now ts IH] using rev_ind; intros Hinc.
  - cbn. repeat split; auto. intros x [].
  - destruct (increasing_prefix ts now Hinc) as [Hpre Hlt].
    specialize (IH Hpre). cbv zeta in IH.
    destruct IH as (Ecv & Elen & Eincl & Evv & Estd).
    cbv zeta. unfold still_head. rewrite map_app. cbn [map].
    fold (still_head c ts). rewrite observe_all_snoc, length_snoc.
    set (self := observe_all thr TrackerProcessing_init (still_head c ts)) in *.
    destruct (threshold_state thr self c now) as (_ & _ & _ & Hrest).
    cbv zeta in Hrest. rewrite length_snoc, Ecv, repeat_length in Hrest.
    destruct (Nat.leb_spec 10 (S (Nat.min (length ts) 9))) as [Hge|Hlt9].
    + assert (Hnine : Nat.min (length ts) 9 = 9%nat) by lia.
      rewrite Hnine in *.
      assert (Hv : fst (estimate_head_velocity (repeat c 9 ++ [c])
                          (timestamp self ++ [now])) = zero_velocity).
      { rewrite <- repeat_cons.
        change (c :: repeat c 9) with (repeat c 10).
        apply still_velocity; [assumption|].
        apply window_span.
        - intros Hnil. rewrite Hnil in Elen. discriminate Elen.
        - apply Forall_forall. intros u Hu.
          rewrite Forall_forall in Hlt. apply Hlt, Eincl, Hu. }
      rewrite Hv in Hrest.
      destruct Hrest as (Ec' & Et' & Hrest).
      assert (Hvv' : Forall (fun row => row = zero_velocity)
                            (velocity_vector self ++ [zero_velocity])).
      { apply Forall_app. split; [assumption|]. repeat constructor. }
      replace (Nat.min (S (length ts)) 9) with 9%nat by lia.
      split; [rewrite Ec', <- repeat_cons; reflexivity|].
      split; [rewrite Et', length_tl_snoc; assumption|].
      split.
      { rewrite Et'. intros u Hu. apply in_tl in Hu.
        apply in_app_iff in Hu. apply in_app_iff.
        destruct Hu as [Hu|Hu]; [left; apply Eincl, Hu|right; exact Hu]. }
      destruct (30 <=? length (velocity_vector self ++ [zero_velocity]))%nat;
        destruct Hrest as (Ev' & Es'); rewrite Ev', Es'.
      * split; [|apply np_std_zeros; assumption].
        apply Forall_forall. intros row Hrow. apply in_tl in Hrow.
        rewrite Forall_forall in Hvv'. apply Hvv', Hrow.
      * split; assumption.
    + destruct Hrest as (Ec' & Et' & Ev' & Es').
      rewrite Ec', Et', Ev', Es', length_snoc, Elen.
      replace (Nat.min (S (length ts)) 9) with (S (Nat.min (length ts) 9))
        by lia.
      split; [rewrite <- repeat_cons; reflexivity|].
      split; [reflexivity|].
      split; [|split; assumption].
      intros u Hu. apply in_app_iff in Hu. apply in_app_iff.
      destruct Hu as [Hu|Hu]; [left; apply Eincl, Hu|right; exact Hu].
Qed.

(** X17: a head at rest is never held back once the gate has its ten
    poses.  For a non-negative threshold, six-component poses that are all
    equal and clock values that increase strictly, every call from the
    10th on returns true, however long the session. *)
Theorem still_head_is_allowed (thr : R) (c : list R) (ts : list R) (now : R) :
  0 <= thr -> length c = 6%nat -> increasing (ts ++ [now]) ->
  (9 <= length ts)%nat ->
  fst (compute_head_move_threshold thr
         (observe_all thr TrackerProcessing_init (still_head c ts)) c now) =
  true.
Proof.
  intros Hthr Hc Hinc Hlen.
  destruct (increasing_prefix ts now Hinc) as [Hpre Hlt].
  destruct (still_head_state thr c ts Hc Hpre)
    as (Ecv & Elen & Eincl & Evv & Estd).
  cbv zeta in *.
  set (self := observe_all thr TrackerProcessing_init (still_head c ts)) in *.
  replace (Nat.min (length ts) 9) with 9%nat in * by lia.
  rewrite threshold_value, Ecv, repeat_length.
  replace (10 <=? 10)%nat with true by reflexivity.
  assert (Hv : fst (estimate_head_velocity (repeat c 9 ++ [c])
                      (timestamp self ++ [now])) = zero_velocity).
  { rewrite <- repeat_cons.
    change (c :: repeat c 9) with (repeat c 10).
    apply still_velocity; [assumption|].
    apply window_span.
    - intros Hnil. rewrite Hnil in Elen. discriminate Elen.
    - apply Forall_forall. intros u Hu.
      rewrite Forall_forall in Hlt. apply Hlt, Eincl, Hu. }
  rewrite Hv.
  destruct (30 <=? S (length (velocity_vector self)))%nat.
  - rewrite np_std_zeros.
    + apply np_gt_zero. assumption.
    + apply Forall_app. split; [assumption|]. repeat constructor.
  - rewrite Estd. apply np_gt_zero. assumption.
Qed.

Lemma nine_clock_values_increase :
  increasing ([0; 1; 2; 3; 4; 5; 6; 7; 8] ++ [9]).
Proof.
  assert (Hnth : forall k, (k < 10)%nat ->
            nth k ([0; 1; 2; 3; 4; 5; 6; 7; 8] ++ [9]) 0 = INR k).
  { intros k Hk.
    do 10 (destruct k as [|k]; [cbn [app nth INR]; lra|]).
    exfalso. lia. }
  intros i j [Hij Hj]. cbn [app length] in Hj.
  rewrite !Hnth by lia. apply lt_INR. exact Hij.
Qed.

Lemma still_head_is_allowed_witness :
  fst (compute_head_move_threshold 10
         (observe_all 10 TrackerProcessing_init
            (still_head [1; 2; 3; 4; 5; 6] [0; 1; 2; 3; 4; 5; 6; 7; 8]))
         [1; 2; 3; 4; 5; 6] 9) = true.
Proof.
  apply (still_head_is_allowed
           10 [1; 2; 3; 4; 5; 6] [0; 1; 2; 3; 4; 5; 6; 7; 8] 9).
  - lra.
  - reflexivity.
  - apply nine_clock_values_increase.
  - cbn [length]. lia.
Defined.

(** ** The motion gate on a stalled clock *)

Lemma finite_values_app_none (l1 l2 : list npfloat) :
  finite_values l2 = None -> finite_values (l1 ++ l2) = None.
Proof.
  intros Hnone. induction l1 as [|e l1 IH]; [exact Hnone|].
  cbn [app finite_values]. rewrite IH. destruct e; reflexivity.
Qed.

Lemma np_divide_by_zero (d : R) : is_finite (np_divide d 0) = false.
Proof.
  unfold np_divide. destruct (Req_dec_T 0 0) as [_|Hn]; [|contradiction].
  destruct (Req_dec_T d 0); [reflexivity|].
  destruct (Rlt_dec 0 d); reflexivity.
Qed.

Lemma hd_has_length (rows : list (list R)) :
  Forall (fun row => length row = 6%nat) rows -> rows <> [] ->
  length (hd [] rows) = 6%nat.
Proof.
  intros Hall Hne. destruct rows as [|row rows]; [contradiction|].
  inversion Hall; subst. assumption.
Qed.

(** The velocity sample over a window whose first and last clock values
    coincide has no finite component. *)
Lemma stalled_velocity (rows : list (list R)) (ts : list R) :
  Forall (fun row => length row = 6%nat) rows -> (2 <= length rows)%nat ->
  last ts 0 = hd 0 ts ->
  exists e v,
    fst (estimate_head_velocity rows ts) = e :: v /\ is_finite e = false.
Proof.
  intros Hall Hlen Hdt. unfold estimate_head_velocity. cbn [fst].
  set (half := (length rows / 2)%nat).
  assert (Hhalf : (1 <= half < length rows)%nat).
  { unfold half. split.
    - apply Nat.div_le_lower_bound; lia.
    - apply Nat.div_lt; lia. }
  rewrite <- (firstn_skipn half rows) in Hall.
  apply Forall_app in Hall. destruct Hall as [Hfirst Hskip].
  assert (Hl1 : length (mean_rows (firstn half rows)) = 6%nat).
  { unfold mean_rows. rewrite length_map, length_seq.
    apply hd_has_length; [assumption|].
    intros Hnil. apply (f_equal (@length _)) in Hnil.
    rewrite length_firstn in Hnil. cbn [length] in Hnil. lia. }
  assert (Hl2 : length (mean_rows (skipn half rows)) = 6%nat).
  { unfold mean_rows. rewrite length_map, length_seq.
    apply hd_has_length; [assumption|].
    intros Hnil. apply (f_equal (@length _)) in Hnil.
    rewrite length_skipn in Hnil. cbn [length] in Hnil. lia. }
  destruct (mean_rows (firstn half rows)) as [|a0 init]; [discriminate Hl1|].
  destruct (mean_rows (skipn half rows)) as [|b0 final]; [discriminate Hl2|].
  unfold vec_sub. cbn [combine map fst snd].
  rewrite Hdt, Rminus_diag.
  eexists _, _. split; [reflexivity|]. apply np_divide_by_zero.
Qed.

(** X18: a clock that stalls opens the gate.  When the window of the gate
    is full, the velocity window holds 29 samples or more, and the clock
    value of the call equals the oldest one in the window, the division by
    the zero time span makes the deviation not-a-number, and the call
    returns true whatever the threshold and however the head moved. *)
Theorem stalled_clock_opens_gate
    (thr : R) (self : TrackerProcessing) (c : list R) (now : R) :
  Forall (fun row => length row = 6%nat) (coord_vel self) ->
  length c = 6%nat ->
  (9 <= length (coord_vel self))%nat ->
  (29 <= length (velocity_vector self))%nat ->
  timestamp self <> [] -> hd 0 (timestamp self) = now ->
  fst (compute_head_move_threshold thr self c now) = true /\
  velocity_std (snd (compute_head_move_threshold thr self c now)) = NaN.
Proof.
  intros Hrows Hc Hlen Hvlen Hne Hstall.
  assert (Hdt : last (timestamp self ++ [now]) 0 =
                hd 0 (timestamp self ++ [now])).
  { rewrite last_last. destruct (timestamp self) as [|t w]; [contradiction|].
    cbn [app hd] in *. symmetry. exact Hstall. }
  assert (Hall : Forall (fun row => length row = 6%nat) (coord_vel self ++ [c])).
  { apply Forall_app. split; [assumption|]. repeat constructor. assumption. }
  destruct (stalled_velocity (coord_vel self ++ [c]) (timestamp self ++ [now])
              Hall) as (e & v & Hv & He); [rewrite length_snoc; lia|exact Hdt|].
  assert (Hstd : np_std (velocity_vector self ++
                   [fst (estimate_head_velocity (coord_vel self ++ [c])
                                                (timestamp self ++ [now]))]) =
                 NaN).
  { unfold np_std. rewrite Hv, concat_app. cbn [concat].
    rewrite finite_values_app_none; [reflexivity|].
    cbn [app finite_values]. destruct e; try reflexivity. discriminate He. }
  split.
  - rewrite threshold_value.
    destruct (Nat.leb_spec 10 (S (length (coord_vel self)))); [|lia].
    destruct (Nat.leb_spec 30 (S (length (velocity_vector self)))); [|lia].
    rewrite Hstd. reflexivity.
  - destruct (threshold_state thr self c now) as (_ & _ & _ & Hrest).
    cbv zeta in Hrest. rewrite !length_snoc in Hrest.
    destruct (Nat.leb_spec 10 (S (length (coord_vel self)))); [|lia].
    destruct Hrest as (_ & _ & Hrest).
    destruct (Nat.leb_spec 30 (S (length (velocity_vector self)))); [|lia].
    destruct Hrest as (_ & Es). rewrite Es. exact Hstd.
Qed.

Lemma stalled_clock_opens_gate_witness :
  let self :=
    observe_all 10 TrackerProcessing_init (still_head zero_pose stalling_clock) in
  fst (compute_head_move_threshold 10 self zero_pose 29) = true /\
  velocity_std (snd (compute_head_move_threshold 10 self zero_pose 29)) = NaN.
Proof.
  intros self.
  pose proof (observe_all_state 10 (still_head zero_pose stalling_clock))
    as (Hc & Hv & _).
  fold self in Hc, Hv.
  assert (Hcv : coord_vel self = repeat zero_pose 9) by reflexivity.
  assert (Hts : timestamp self = repeat 29 9) by reflexivity.
  apply (stalled_clock_opens_gate 10 self zero_pose 29).
  - rewrite Hcv. apply Forall_forall. intros row Hrow.
    apply repeat_spec in Hrow. rewrite Hrow. reflexivity.
  - reflexivity.
  - rewrite Hc. cbn. lia.
  - rewrite Hv. cbn. lia.
  - rewrite Hts. discriminate.
  - rewrite Hts. reflexivity.
Defined.

(** ** Matrices of poses are rigid transformations *)

(** X19: every matrix the encoder builds is a rigid transformation, under
    either convention and for every position and orientation: its bottom
    row is (0, 0, 0, 1) and its rotation block is orthonormal. *)
Theorem pose_matrices_are_rigid (p o : list R) (c : tr.axes) :
  let M := coordinates_to_transformation_matrix p o c in
  nth 3 M [] = [0; 0; 0; 1] /\
  matmul (rotation_block M) (transpose3 (rotation_block M)) = identity 3.
Proof.
  assert (Hrigid : forall ai aj ak,
    nth 3 (pose_matrix ai aj ak p) [] = [0; 0; 0; 1] /\
    matmul (rotation_block (pose_matrix ai aj ak p))
           (transpose3 (rotation_block (pose_matrix ai aj ak p))) =
    identity 3).
  { intros ai aj ak. split; [reflexivity|].
    pose proof (sin2_cos2 ai) as Hi. pose proof (sin2_cos2 aj) as Hj.
    pose proof (sin2_cos2 ak) as Hk. unfold Rsqr in Hi, Hj, Hk.
    unfold pose_matrix, rotation_block, transpose3, matmul, identity, mget,
      dot, column, Rsum.
    cbn [firstn map seq nth hd length combine fst snd fold_right Nat.eqb].
    set (si := sin ai) in *. set (ci := cos ai) in *.
    set (sj := sin aj) in *. set (cj := cos aj) in *.
    set (sk := sin ak) in *. set (ck := cos ak) in *.
    repeat (f_equal; try nsatz). }
  cbv zeta. destruct c;
    [rewrite to_matrix_static|rewrite to_matrix_rotating]; apply Hrigid.
Qed.

(** ** A calibration that only translates *)

Lemma translation_matmul_pose_matrix (t : list R) (ai aj ak : R) (p : list R) :
  matmul (tr.translation_matrix t) (pose_matrix ai aj ak p) =
  pose_matrix ai aj ak
    [nth 0 p 0 + nth 0 t 0; nth 1 p 0 + nth 1 t 0; nth 2 p 0 + nth 2 t 0].
Proof.
  unfold matmul, tr.translation_matrix, pose_matrix, dot, column, Rsum. cbn.
  matrix_entries.
Qed.

(** X20: when the tracker-to-robot matrix is a pure translation, the frame
    conversion moves the three positions by that translation and gives the
    angles back unchanged, for poses whose angles are in the range the
    decoder answers in. *)
Theorem translation_calibration_shifts_positions
    (t probe ref obj : list R) :
  principal_pose probe -> principal_pose ref -> principal_pose obj ->
  transform_tracker_to_robot (Some (tr.translation_matrix t))
                             [probe; ref; obj] =
  Returned [shifted t probe; shifted t ref; shifted t obj].
Proof.
  assert (Hone : forall pose, principal_pose pose ->
            convert_marker_spec tr.rzyx (tr.translation_matrix t) pose =
            shifted t pose).
  { intros pose (Hlen & Ha & Hb & Hg & Heps). list6 pose Hlen.
    cbn [nth] in *. unfold convert_marker_spec, shifted. cbn [firstn skipn].
    rewrite to_matrix_rotating. cbn [nth].
    rewrite translation_matmul_pose_matrix. cbn [nth].
    rewrite decode_pose_matrix by (reflexivity || assumption).
    reflexivity. }
  intros Hp Hr Ho. unfold transform_tracker_to_robot. cbn [nth].
  rewrite !transformation_tracker_to_robot_set. cbn [Py.bind].
  rewrite !Hone by assumption. reflexivity.
Qed.

Lemma translation_calibration_shifts_positions_witness :
  transform_tracker_to_robot (Some (tr.translation_matrix [1; 2; 3]))
    [[10; 0; 0; 30; 0; -45]; [10; 0; 0; 30; 0; -45]; [10; 0; 0; 30; 0; -45]] =
  Returned
    [shifted [1; 2; 3] [10; 0; 0; 30; 0; -45];
     shifted [1; 2; 3] [10; 0; 0; 30; 0; -45];
     shifted [1; 2; 3] [10; 0; 0; 30; 0; -45]].
Proof.
  apply (translation_calibration_shifts_positions
           [1; 2; 3] [10; 0; 0; 30; 0; -45] [10; 0; 0; 30; 0; -45]
           [10; 0; 0; 30; 0; -45]);
    apply principal_pose_example.
Defined.

(** ** The length of a versor *)

Lemma Rsum_squares_scaled (k : R) (l : list R) :
  Rsum (map (fun d => d ^ 2) (map (fun d => d * k) l)) =
  k * k * Rsum (map (fun d => d ^ 2) l).
Proof.
  induction l as [|d l IH]; cbn [map Rsum fold_right].
  - ring.
  - fold (Rsum (map (fun d => d ^ 2) (map (fun d => d * k) l))).
    fold (Rsum (map (fun d => d ^ 2) l)). rewrite IH. ring.
Qed.

(** X21: away from the degenerate case, the versor that compute_versors
    returns is finite and its Euclidean norm over all the components is the
    absolute value of the scale factor. *)
Theorem versor_has_scale_length (s : R) (init final : list R) :
  length init = length final -> final <> init ->
  exists v,
    compute_versors s init final = map Fin v /\
    euclidean_norm v = Rabs s.
Proof.
  intros Hlen Hne.
  pose proof (euclidean_norm_pos init final Hlen Hne) as HN.
  rewrite (compute_versors_formula s init final Hlen Hne).
  set (diff := vec_sub final init) in *.
  set (N := euclidean_norm diff) in *.
  exists (map (fun d => d * (/ N * s)) diff). split.
  - rewrite map_map. apply map_ext. intros d. f_equal. unfold Rdiv. ring.
  - unfold euclidean_norm at 1. rewrite Rsum_squares_scaled.
    assert (HNN : Rsum (map (fun d => d ^ 2) diff) = N * N).
    { unfold N, euclidean_norm. symmetry. apply sqrt_def.
      apply Rsum_squares_nonneg. }
    rewrite HNN.
    replace (/ N * s * (/ N * s) * (N * N)) with (Rsqr s)
      by (unfold Rsqr; field; lra).
    apply sqrt_Rsqr_abs.
Qed.

Lemma versor_has_scale_length_witness :
  exists v,
    compute_versors 70 zero_pose [3; 4; 0; 0; 0; 0] = map Fin v /\
    euclidean_norm v = Rabs 70.
Proof.
  apply (versor_has_scale_length 70 zero_pose [3; 4; 0; 0; 0; 0]).
  - reflexivity.
  - unfold zero_pose. intros H. injection H as H0. lra.
Defined.

(** ** The velocity estimate *)

(** X22: on ten poses of a head in uniform motion, taken at equal time
    steps, the displacement that estimate_head_velocity returns is five
    steps and the velocity is 5/9 of the true one: the means of the two
    halves of the window are five samples apart, the time span is nine. *)
Theorem uniform_motion_is_underestimated
    (start step : list R) (t0 dt : R) :
  length start = 6%nat -> length step = 6%nat -> 0 < dt ->
  estimate_head_velocity (uniform_poses start step) (uniform_clock t0 dt) =
  (map (fun w => Fin (5 / 9 * (w / dt))) step, map (fun w => 5 * w) step).
Proof.
  intros Hs Hw Hdt. list6 start Hs. list6 step Hw.
  unfold estimate_head_velocity, uniform_poses, uniform_clock.
  change (length (map _ (seq 0 10)) / 2)%nat with 5%nat.
  cbn [seq map combine fst snd firstn skipn last hd INR].
  unfold mean_rows, column, mean, vec_sub, Rsum.
  cbn [hd length seq map nth combine fst snd fold_right INR].
  unfold np_divide.
  destruct (Req_dec_T _ 0) as [Hz|_]; [exfalso; lra|].
  f_equal; repeat (f_equal; try (field; lra)).
Qed.

Lemma uniform_motion_is_underestimated_witness :
  estimate_head_velocity
    (uniform_poses zero_pose [9; 0; 0; 0; 0; 0]) (uniform_clock 0 1) =
  (map (fun w => Fin (5 / 9 * (w / 1))) [9; 0; 0; 0; 0; 0],
   map (fun w => 5 * w) [9; 0; 0; 0; 0; 0]).
Proof.
  apply (uniform_motion_is_underestimated zero_pose [9; 0; 0; 0; 0; 0] 0 1);
    try reflexivity; lra.
Defined.

(** ** The sizes of the windows *)

Lemma run_snoc (thr : R) (self : TrackerProcessing)
    (ops : list operation) (op : operation) :
  run thr self (ops ++ [op]) = apply_operation thr (run thr self ops) op.
Proof. unfold run. rewrite fold_left_app. reflexivity. Qed.

(** X23: the windows fill up and then keep their size.  After any
    interleaving of operations on a fresh instance with n gate calls and m
    filter calls, the head-pose and timestamp windows hold min(n, 9)
    entries, the velocity window min(n - 9, 29) and the Kalman warm-up
    window min(m, 19). *)
Theorem window_sizes (thr : R) (ops : list operation) :
  let self := run thr TrackerProcessing_init ops in
  length (coord_vel self) = Nat.min (gate_calls ops) 9 /\
  length (timestamp self) = Nat.min (gate_calls ops) 9 /\
  length (velocity_vector self) = Nat.min (gate_calls ops - 9) 29 /\
  length (kalman_coord_vector self) = Nat.min (filter_calls ops) 19.
Proof.
  induction ops as [|op ops IH] using rev_ind.
  - cbn. auto.
  - cbv zeta in *. destruct IH as (Hc & Ht & Hv & Hk).
    rewrite run_snoc. unfold gate_calls, filter_calls in *.
    rewrite !filter_app, !length_app.
    set (self := run thr TrackerProcessing_init ops) in *.
    destruct op as [f|c|c now|]; cbn [apply_operation List.filter length].
    + cbn [SetMatrixTrackerFiducials coord_vel timestamp velocity_vector
           kalman_coord_vector].
      rewrite !Nat.add_0_r. auto.
    + destruct (kalman_filter_state self c)
        as (Ec & Et & Ev & _ & _ & _ & Ek).
      rewrite Ec, Et, Ev, Ek, !Nat.add_0_r.
      repeat split; try assumption.
      destruct (Nat.ltb_spec
                  (length (kalman_coord_vector self ++
                           [firstn 3 (filtered_pose self c)])) 20)
        as [Hlt|Hge].
      * rewrite length_snoc in *. lia.
      * rewrite length_tl_snoc. rewrite length_snoc in Hge. lia.
    + destruct (threshold_state thr self c now) as (Ek & _ & _ & Hrest).
      cbv zeta in Hrest. rewrite Ek, !Nat.add_0_r.
      destruct (Nat.leb_spec 10 (length (coord_vel self ++ [c])))
        as [Hge|Hlt].
      * destruct Hrest as (Ec & Et & Hrest).
        rewrite Ec, Et, !length_tl_snoc. rewrite length_snoc in Hge.
        destruct (Nat.leb_spec 30
                    (length (velocity_vector self ++
                       [fst (estimate_head_velocity (coord_vel self ++ [c])
                                                    (timestamp self ++ [now]))])))
          as [Hge'|Hlt']; destruct Hrest as (Ev & _); rewrite Ev.
        -- rewrite length_tl_snoc. rewrite length_snoc in Hge'.
           repeat split; try assumption; lia.
        -- rewrite length_snoc in *. repeat split; try assumption; lia.
      * destruct Hrest as (Ec & Et & Ev & _).
        rewrite Ec, Et, Ev. rewrite !length_snoc in *.
        repeat split; try assumption; lia.
    + rewrite !Nat.add_0_r. auto.
Qed.
